(** * CodeFileGenerator: the structured source-code emitter

    A shallow embedding of
    [Source/ArticyEditor/Private/CodeGeneration/CodeFileGenerator.cpp]
    and the properties its specification states about it.

    - [FString] is [string]; the engine's string primitives used by the
      file ([IsEmpty], [Equals], [operator==], [AppendChar],
      [FChar::IsUpper]) are given their engine meaning on 8-bit characters.
    - The generator object is a record; every emission member function is
      a state transformer on it.  [UE_LOG] output to [LogArticyEditor] is
      carried in the state.
    - [WriteToFile] talks to the platform file and the source-control
      module.  Both are external: they are a record of answers
      ([Platform]), and every call made is recorded, in order, in a
      trace.
    - [SDialogueEntityToolTip::CreateToolTipContent], from
      [SDialogueEntityToolTip.cpp], is embedded down to the title and
      the rows it puts in the info box. *)

From Stdlib Require Import String Ascii List ZArith Lia Bool.
Import ListNotations.

Local Open Scope string_scope.
Local Open Scope Z_scope.

(* ================================================================= *)
(** ** Characters and strings *)

Definition TAB : ascii := "009"%char.
Definition LF : ascii := "010"%char.
Definition DQUOTE : ascii := "034"%char.
Definition SPACE : ascii := " "%char.

Definition str1 (c : ascii) : string := String c EmptyString.

(** [FString::IsEmpty]. *)
Definition IsEmpty (s : string) : bool :=
  match s with
  | EmptyString => true
  | String _ _ => false
  end.

(** [FString::AppendChar]. *)
Definition AppendChar (s : string) (c : ascii) : string := s ++ str1 c.

(** [FString::Equals] with its default [ESearchCase::CaseSensitive]. *)
Definition Equals (a b : string) : bool := String.eqb a b.

(** [FChar::IsUpper]: the letters [A]..[Z]. *)
Definition FChar_IsUpper (c : ascii) : bool :=
  let n := N_of_ascii c in
  (N.leb 65 n && N.leb n 90)%bool.

(** [FChar::ToLower] on the same range. *)
Definition FChar_ToLower (c : ascii) : ascii :=
  if FChar_IsUpper c then ascii_of_N (N_of_ascii c + 32) else c.

Fixpoint ToLower (s : string) : string :=
  match s with
  | EmptyString => EmptyString
  | String c r => String (FChar_ToLower c) (ToLower r)
  end.

(** [operator==] on [FString]: the engine compares ignoring case
    ([Stricmp]).  It is the comparison [TArray<FString>::Contains] uses. *)
Definition FString_eq (a b : string) : bool :=
  String.eqb (ToLower a) (ToLower b).

(** [TArray<FString>::Contains]. *)
Definition Contains (arr : list string) (x : string) : bool :=
  existsb (fun y => FString_eq y x) arr.

(** [FString::EndsWith]. The default is to ignore case; it is only used
    with the suffix [":"]. *)
Definition EndsWith (s suffix : string) : bool :=
  let n := String.length s in
  let m := String.length suffix in
  (Nat.leb m n && FString_eq (substring (n - m) m s) suffix)%bool.

(* ================================================================= *)
(** ** SplitName *)

(** The loop of [SplitName]: [i] is the loop index, [Name] holds the
    characters [Name[i..]] still to be visited, [Result] is the local
    being built. *)
Fixpoint SplitName_loop (i : nat) (Name : string) (Result : string) : string :=
  match Name with
  | EmptyString => Result
  | String c rest =>
      let Result1 :=
        if (FChar_IsUpper c && Nat.ltb 0 i)%bool
        then AppendChar Result SPACE
        else Result in
      SplitName_loop (S i) rest (AppendChar Result1 c)
  end.

Definition SplitName (Name : string) : string :=
  SplitName_loop 0 Name EmptyString.

(** Number of uppercase letters of a string, and of its interior (every
    position but the first). *)
Fixpoint count_upper (s : string) : nat :=
  match s with
  | EmptyString => 0%nat
  | String c r => ((if FChar_IsUpper c then 1 else 0) + count_upper r)%nat
  end.

Definition interior_upper (s : string) : nat :=
  match s with
  | EmptyString => 0%nat
  | String _ r => count_upper r
  end.

(** An uppercase-initial token: one uppercase letter followed by
    characters that are neither uppercase letters nor spaces. *)
Fixpoint no_upper_no_space (s : string) : bool :=
  match s with
  | EmptyString => true
  | String c r =>
      (negb (FChar_IsUpper c) && negb (Ascii.eqb c SPACE) && no_upper_no_space r)%bool
  end.

Definition is_token (s : string) : bool :=
  match s with
  | EmptyString => false
  | String c r => (FChar_IsUpper c && no_upper_no_space r)%bool
  end.

(** Tokens joined by single spaces. *)
Fixpoint join_tokens (ts : list string) : string :=
  match ts with
  | [] => EmptyString
  | [t] => t
  | t :: ts' => t ++ " " ++ join_tokens ts'
  end.

(** The inputs of the idempotence claim: one or more uppercase-initial
    tokens separated by single spaces. *)
Definition already_split (s : string) : Prop :=
  exists ts, ts <> [] /\ forallb is_token ts = true /\ s = join_tokens ts.

(* ================================================================= *)
(** ** The generator object *)

(** Lines sent to the log category [LogArticyEditor]. *)
Inductive LogLine : Type :=
| BlockEndMismatch                 (* Error: "Block end missmatch!" *)
| BlockCountWhenWriting (n : Z)    (* Warning: "Block count is %d when writing to file!" *)
| IndentUnderflow.                 (* PopIndent at depth zero *)

(** Modelled from the spec: the data members are declared in
    CodeFileGenerator.h, which is not among the sources.  The spec's
    Document has a target path, a text buffer, an indent depth and an
    open-block count, both non-negative integers; the counters are
    integers here and [wf] below states that they are not negative.
    [LogArticyEditor] is the engine's log category, kept with the
    object. *)
Record CodeFileGenerator : Type := mkGen {
  Path : string;
  FileContent : string;
  IndentCount : Z;
  BlockCount : Z;
  LogArticyEditor : list LogLine
}.

(** A member function returning [void] is a transformer of the object. *)
Definition Op : Type := CodeFileGenerator -> CodeFileGenerator.

Definition seq (f g : Op) : Op := fun s => g (f s).
Notation "f ;; g" := (seq f g) (at level 61, right associativity).

Definition skip : Op := fun s => s.
Definition when (b : bool) (f : Op) : Op := if b then f else skip.

Definition set_FileContent (c : string) : Op := fun s =>
  mkGen (Path s) c (IndentCount s) (BlockCount s) (LogArticyEditor s).
Definition set_IndentCount (n : Z) : Op := fun s =>
  mkGen (Path s) (FileContent s) n (BlockCount s) (LogArticyEditor s).
Definition set_BlockCount (n : Z) : Op := fun s =>
  mkGen (Path s) (FileContent s) (IndentCount s) n (LogArticyEditor s).
Definition UE_LOG (l : LogLine) : Op := fun s =>
  mkGen (Path s) (FileContent s) (IndentCount s) (BlockCount s)
        (LogArticyEditor s ++ [l]).

(** The counters are never negative. *)
Definition wf (s : CodeFileGenerator) : Prop :=
  0 <= IndentCount s /\ 0 <= BlockCount s.

(** [n] iterations of [FileContent += "\t"]. *)
Fixpoint add_tabs (n : nat) (content : string) : string :=
  match n with
  | O => content
  | S k => add_tabs k (content ++ str1 TAB)
  end.

(** [Line]: the loop [for (int i = 0; i < IndentCount + IndentOffset; ++i)]
    runs [max 0 (IndentCount + IndentOffset)] times. *)
Definition Line (Text : string) (bSemicolon bIndent : bool) (IndentOffset : Z) : Op :=
  fun s =>
    let content :=
      if bIndent
      then add_tabs (Z.to_nat (IndentCount s + IndentOffset)) (FileContent s)
      else FileContent s in
    set_FileContent
      (content ++ (Text ++ (if bSemicolon then ";" else "") ++ str1 LF)) s.

(** Modelled from the spec: the default arguments of [Line] are declared
    in CodeFileGenerator.h, which is not among the sources.  The emitted
    forms the spec describes (annotation lines [KIND(specifiers)], brace
    lines, tab-indented members, a blank line) fix them: no terminator,
    indentation on, offset 0, empty text. *)
Definition Line1 (Text : string) : Op := Line Text false true 0.
Definition Line2 (Text : string) (bSemicolon : bool) : Op := Line Text bSemicolon true 0.
Definition Line0 : Op := Line "" false true 0.

(** Modelled from the spec: [PushIndent] and [PopIndent] are defined in
    CodeFileGenerator.h, which is not among the sources.  The spec: they
    adjust the indent depth by +1 and -1; [PopIndent] at depth zero is a
    no-op with a reported inconsistency. *)
Definition PushIndent : Op := fun s => set_IndentCount (IndentCount s + 1) s.
Definition PopIndent : Op := fun s =>
  if IndentCount s >? 0
  then set_IndentCount (IndentCount s - 1) s
  else UE_LOG IndentUnderflow s.

Definition Comment (Text : string) : Op :=
  Line1 ("/** " ++ Text ++ " */").

Definition AccessModifier (Text : string) : Op :=
  Line (Text ++ (if EndsWith Text ":" then "" else ":")) false true (-1).

Definition UPropertyMacro (Specifiers : string) : Op :=
  Line1 ("UPROPERTY(" ++ Specifiers ++ ")").

Definition UFunctionMacro (Specifiers : string) : Op :=
  Line1 ("UFUNCTION(" ++ Specifiers ++ ")").

(** The function-local static of [Variable]. *)
Definition ReservedNames : list string :=
  ["Text"; "DisplayName"; "MenuText"; "CreatedBy"; "StageDirections"].

(** The two lines of the generated accessor. *)
Definition accessor_macro (Name : string) : string :=
  "UFUNCTION(BlueprintPure, meta=(DisplayName=" ++ str1 DQUOTE ++ "Get "
    ++ SplitName Name ++ " (Localized)" ++ str1 DQUOTE ++ "))".

Definition accessor_method (Type_ Name : string) : string :=
  Type_ ++ " Get" ++ Name ++ "() { return GetPropertyText(" ++ Name ++ "); }".

(** [CodeFileGenerator::Variable] (the trailing underscore keeps the name
    apart from the vernacular keyword). *)
Definition Variable_ (Type_ Name Value Comment_ : string) (bUproperty : bool)
    (UpropertySpecifiers : string) : Op :=
  when (negb (IsEmpty Comment_)) (Comment Comment_) ;;
  when bUproperty (UPropertyMacro UpropertySpecifiers) ;;
  (let str := Type_ ++ " " ++ Name in
   let str := if negb (IsEmpty Value) then str ++ (" = " ++ Value) else str in
   Line2 str true) ;;
  when (bUproperty && Equals Type_ "FText")
    (when (negb (Contains ReservedNames Name))
       (Line1 (accessor_macro Name) ;;
        Line1 (accessor_method Type_ Name))).

(* ----------------------------------------------------------------- *)

Definition StartBlock (bIndent : bool) : Op :=
  (fun s => set_BlockCount (BlockCount s + 1) s) ;;
  Line1 "{" ;;
  when bIndent PushIndent.

Definition EndBlock (bUnindent bSemicolon : bool) : Op :=
  (fun s =>
     if BlockCount s =? 0
     then UE_LOG BlockEndMismatch s
     else set_BlockCount (BlockCount s - 1) s) ;;
  when bUnindent PopIndent ;;
  Line2 "}" bSemicolon.

(** [FChar::ToUpper] and [FString::ToUpper], for the export macro. *)
Definition FChar_IsLower (c : ascii) : bool :=
  let n := N_of_ascii c in
  (N.leb 97 n && N.leb n 122)%bool.

Fixpoint ToUpper (s : string) : string :=
  match s with
  | EmptyString => EmptyString
  | String c r =>
      String (if FChar_IsLower c then ascii_of_N (N_of_ascii c - 32) else c)
             (ToUpper r)
  end.

(** [GetExportMacro]; [ProjectName] stands for [FApp::GetProjectName()]. *)
Definition GetExportMacro (ProjectName : string) : string :=
  ToUpper ProjectName ++ "_API ".

Definition StartClass (ProjectName Classname Comment_ : string) (bUClass : bool)
    (UClassSpecifiers : string) : Op :=
  let ExportMacro := if bUClass then GetExportMacro ProjectName else "" in
  when (negb (IsEmpty Comment_)) (Comment Comment_) ;;
  when bUClass (Line1 ("UCLASS(" ++ UClassSpecifiers ++ ")")) ;;
  Line1 ("class " ++ ExportMacro ++ Classname) ;;
  StartBlock true ;;
  when bUClass (Line1 "GENERATED_BODY()" ;; Line0).

Definition StartStruct (ProjectName Structname Comment_ : string) (bUStruct : bool) : Op :=
  let ExportMacro := if bUStruct then GetExportMacro ProjectName else "" in
  when (negb (IsEmpty Comment_)) (Comment Comment_) ;;
  when bUStruct (Line1 "USTRUCT(BlueprintType)") ;;
  Line1 ("struct " ++ ExportMacro ++ Structname) ;;
  StartBlock true ;;
  when bUStruct (Line1 "GENERATED_BODY()" ;; Line0).

Definition EndStruct (InlineDeclaration : string) : Op :=
  EndBlock true (IsEmpty InlineDeclaration) ;;
  when (negb (IsEmpty InlineDeclaration)) (Line2 InlineDeclaration true).

(* ================================================================= *)
(** ** Sequences of block calls *)

Inductive BlockCall : Type :=
| CallStartBlock (bIndent : bool)
| CallEndBlock (bUnindent bSemicolon : bool).

Definition run_call (c : BlockCall) : Op :=
  match c with
  | CallStartBlock b => StartBlock b
  | CallEndBlock b semi => EndBlock b semi
  end.

Fixpoint run_calls (cs : list BlockCall) : Op :=
  match cs with
  | [] => skip
  | c :: cs' => run_call c ;; run_calls cs'
  end.

(** Balanced sequences: every [StartBlock] is closed by a later
    [EndBlock] carrying the same indent flag, and blocks nest. *)
Inductive Balanced : list BlockCall -> Prop :=
| Balanced_nil : Balanced []
| Balanced_block (b semi : bool) (inner : list BlockCall) :
    Balanced inner ->
    Balanced (CallStartBlock b :: inner ++ [CallEndBlock b semi])
| Balanced_app (l1 l2 : list BlockCall) :
    Balanced l1 -> Balanced l2 -> Balanced (l1 ++ l2).

(** The same, as a check that runs: [open] is the stack of the indent
    flags of the blocks still open. *)
Fixpoint balanced_from (open : list bool) (cs : list BlockCall) : bool :=
  match cs with
  | [] => match open with [] => true | _ :: _ => false end
  | CallStartBlock b :: cs' => balanced_from (b :: open) cs'
  | CallEndBlock b _ :: cs' =>
      match open with
      | [] => false
      | b0 :: open' => (Bool.eqb b0 b && balanced_from open' cs')%bool
      end
  end.

Definition balancedb (cs : list BlockCall) : bool := balanced_from [] cs.

(** Number of open blocks that pushed an indent. *)
Fixpoint indents_of (open : list bool) : Z :=
  match open with
  | [] => 0
  | b :: open' => (if b then 1 else 0) + indents_of open'
  end.

(* ================================================================= *)
(** ** The platform: file system and source control *)

(** The answers of the external collaborators.  [LoadFileToString]
    gives its success flag and the value left in its out-parameter.
    The answers do not change during one call of [WriteToFile]. *)
Record Platform : Type := mkPlatform {
  FileExists : string -> bool;
  LoadFileToString : string -> bool * string;
  IsEnabled : bool;
  UsesCheckout : bool;
  CheckOutFile : string -> bool;
  SaveStringToFile : string -> string -> bool;
  MarkFileForAdd : string -> bool
}.

(** What [WriteToFile] does to the outside, in order. *)
Inductive Event : Type :=
| EFileExists (Filename : string)
| ELoadFileToString (Filename : string)
| EIsEnabled
| EUsesCheckout
| ECheckOutFile (Filename : string)
| ESaveStringToFile (Content Filename : string)
| EMarkFileForAdd (Filename : string)
| ELog (l : LogLine).

(** A computation that returns an [A] and appends to the trace. *)
Definition IO (A : Type) : Type := list Event -> A * list Event.

Definition ret {A} (a : A) : IO A := fun tr => (a, tr).
Definition bind {A B} (m : IO A) (k : A -> IO B) : IO B :=
  fun tr => let (a, tr') := m tr in k a tr'.
Definition emit {A} (e : Event) (a : A) : IO A := fun tr => (a, (tr ++ [e])%list).

Notation "x <- m ; k" := (bind m (fun x => k))
  (at level 62, m at next level, right associativity).
Notation "m ;;; k" := (bind m (fun _ => k))
  (at level 62, right associativity).

Definition io_when (b : bool) (m : IO unit) : IO unit := if b then m else ret tt.

Section Calls.
Variable P : Platform.

Definition call_FileExists (p : string) : IO bool :=
  emit (EFileExists p) (FileExists P p).
Definition call_LoadFileToString (p : string) : IO (bool * string) :=
  emit (ELoadFileToString p) (LoadFileToString P p).
Definition call_IsEnabled : IO bool :=
  emit EIsEnabled (IsEnabled P).
Definition call_UsesCheckout : IO bool :=
  emit EUsesCheckout (UsesCheckout P).
Definition call_CheckOutFile (p : string) : IO bool :=
  emit (ECheckOutFile p) (CheckOutFile P p).
Definition call_SaveStringToFile (c p : string) : IO bool :=
  emit (ESaveStringToFile c p) (SaveStringToFile P c p).
Definition call_MarkFileForAdd (p : string) : IO bool :=
  emit (EMarkFileForAdd p) (MarkFileForAdd P p).
Definition log (l : LogLine) : IO unit := emit (ELog l) tt.

(** The part of [WriteToFile] after the two early returns.
    [bFileExisted] is the local of that name. *)
Definition write_changed (this : CodeFileGenerator) (bFileExisted : bool) : IO unit :=
  bCheckOutEnabled <-
    (enabled <- call_IsEnabled ;
     if enabled then call_UsesCheckout else ret false) ;
  io_when (bFileExisted && bCheckOutEnabled)
    (call_CheckOutFile (Path this) ;;; ret tt) ;;;
  bFileWritten <- call_SaveStringToFile (FileContent this) (Path this) ;
  (* !bFileExisted && bFileWritten && SCModule.IsEnabled() *)
  cond <-
    (if (negb bFileExisted && bFileWritten)%bool then call_IsEnabled else ret false) ;
  io_when cond (call_MarkFileForAdd (Path this) ;;; ret tt).

Definition WriteToFile (this : CodeFileGenerator) : IO unit :=
  if IsEmpty (FileContent this) then ret tt (* return *)
  else
    io_when (BlockCount this >? 0) (log (BlockCountWhenWriting (BlockCount this))) ;;;
    let bFileExisted := false in
    existed <- call_FileExists (Path this) ;
    unchanged <-
      (if existed
       then
         loaded <- call_LoadFileToString (Path this) ;
         let OldContent := snd loaded in
         ret (Equals (FileContent this) OldContent)
       else ret false) ;
    if unchanged then ret tt (* return *)
    else write_changed this bFileExisted.
End Calls.

(** One call of [WriteToFile], from an empty trace. *)
Definition returned (P : Platform) (g : CodeFileGenerator) : unit :=
  fst (WriteToFile P g []).
Definition trace (P : Platform) (g : CodeFileGenerator) : list Event :=
  snd (WriteToFile P g []).

(** The calls that may change the disk or the depot. *)
Definition is_mutation (e : Event) : bool :=
  match e with
  | ECheckOutFile _ | ESaveStringToFile _ _ | EMarkFileForAdd _ => true
  | _ => false
  end.

Definition mutations (tr : list Event) : list Event := filter is_mutation tr.

Definition is_CheckOut (e : Event) : bool :=
  match e with ECheckOutFile _ => true | _ => false end.
Definition is_Save (e : Event) : bool :=
  match e with ESaveStringToFile _ _ => true | _ => false end.
Definition is_MarkForAdd (e : Event) : bool :=
  match e with EMarkFileForAdd _ => true | _ => false end.

Definition count (f : Event -> bool) (tr : list Event) : nat :=
  List.length (filter f tr).

(** A read, checkout or write that reported failure. *)
Definition failed (P : Platform) (e : Event) : bool :=
  match e with
  | ELoadFileToString p => negb (fst (LoadFileToString P p))
  | ECheckOutFile p => negb (CheckOutFile P p)
  | ESaveStringToFile c p => negb (SaveStringToFile P c p)
  | _ => false
  end.

Definition any_failure (P : Platform) (g : CodeFileGenerator) : bool :=
  existsb (failed P) (trace P g).

(* ================================================================= *)
(** ** Auxiliary definitions used by the statements *)

(** What [SplitName] does to the characters after the first one. *)
Fixpoint split_interior (s : string) : string :=
  match s with
  | EmptyString => EmptyString
  | String c r =>
      if FChar_IsUpper c
      then String SPACE (String c (split_interior r))
      else String c (split_interior r)
  end.

(** The indentation [Line] puts in front of a line at depth [n]. *)
Definition indentation (n : Z) : string := add_tabs (Z.to_nat n) EmptyString.

(** The text one call [Line(Text, bSemicolon)] adds at depth [n]. *)
Definition line_text (n : Z) (Text : string) (bSemicolon : bool) : string :=
  indentation n ++ Text ++ (if bSemicolon then ";" else "") ++ str1 LF.

(** A freshly constructed generator for [p]. *)
Definition fresh (p : string) : CodeFileGenerator := mkGen p "" 0 0 [].

(** Concrete documents and platforms. *)
Definition doc_new : CodeFileGenerator := mkGen "Foo.h" "new" 0 0 [].
Definition doc_empty : CodeFileGenerator := mkGen "Foo.h" "" 0 0 [].
Definition doc_old : CodeFileGenerator := mkGen "Foo.h" "old" 0 0 [].

(** The file exists with other content; source control is on and uses
    checkout; every call succeeds. *)
Definition platform_tracked : Platform :=
  mkPlatform (fun _ => true) (fun _ => (true, "old")) true true
             (fun _ => true) (fun _ _ => true) (fun _ => true).



(** No file at the path; source control is on; every call succeeds. *)
Definition platform_absent : Platform :=
  mkPlatform (fun _ => false) (fun _ => (false, "")) true true
             (fun _ => true) (fun _ _ => true) (fun _ => true).

(** No file at the path; source control is on; the write fails. *)
Definition platform_absent_write_fails : Platform :=
  mkPlatform (fun _ => false) (fun _ => (false, "")) true true
             (fun _ => true) (fun _ _ => false) (fun _ => true).

(** A document with indent depth 1 and no open block: one block was
    opened with indentation and closed without unindenting. *)
Definition doc_indented_no_block : CodeFileGenerator :=
  (StartBlock true ;; EndBlock false false) (fresh "Foo.h").

(** Two nested blocks, the outer indented, the inner not. *)
Definition nested_calls : list BlockCall :=
  [CallStartBlock true; CallStartBlock false;
   CallEndBlock false false; CallEndBlock true true].



(** Idempotence of [SplitName] on every already-split input. *)
Definition idempotent_on_already_split : Prop :=
  forall s, already_split s -> SplitName (SplitName s) = SplitName s.

(** A commit to an absent path under source control: exactly one write,
    then exactly one mark-for-add, no checkout. *)
Definition writes_then_marks (P : Platform) (g : CodeFileGenerator) : Prop :=
  FileExists P (Path g) = false ->
  IsEnabled P = true ->
  mutations (trace P g) =
    [ESaveStringToFile (FileContent g) (Path g); EMarkFileForAdd (Path g)].

(** A mismatched [EndBlock] with [bUnindent] always lowers the depth. *)
Definition mismatched_unindent_decreases : Prop :=
  forall s bSemicolon,
    BlockCount s = 0 ->
    IndentCount (EndBlock true bSemicolon s) < IndentCount s.

(* ================================================================= *)
(** ** Programs of emission calls *)

(** One call of a public emission function of the generator. *)
Inductive EmitCall : Type :=
| DoLine (Text : string) (bSemicolon bIndent : bool) (IndentOffset : Z)
| DoComment (Text : string)
| DoAccessModifier (Text : string)
| DoUPropertyMacro (Specifiers : string)
| DoUFunctionMacro (Specifiers : string)
| DoVariable (Type_ Name Value Comment_ : string) (bUproperty : bool)
    (UpropertySpecifiers : string)
| DoStartBlock (bIndent : bool)
| DoEndBlock (bUnindent bSemicolon : bool)
| DoStartClass (Classname Comment_ : string) (bUClass : bool)
    (UClassSpecifiers : string)
| DoStartStruct (Structname Comment_ : string) (bUStruct : bool)
| DoEndStruct (InlineDeclaration : string).

(** [ProjectName] stands for [FApp::GetProjectName()]. *)
Definition exec (ProjectName : string) (c : EmitCall) : Op :=
  match c with
  | DoLine t semi ind off => Line t semi ind off
  | DoComment t => Comment t
  | DoAccessModifier t => AccessModifier t
  | DoUPropertyMacro sp => UPropertyMacro sp
  | DoUFunctionMacro sp => UFunctionMacro sp
  | DoVariable ty n v c b sp => Variable_ ty n v c b sp
  | DoStartBlock b => StartBlock b
  | DoEndBlock u semi => EndBlock u semi
  | DoStartClass n c b sp => StartClass ProjectName n c b sp
  | DoStartStruct n c b => StartStruct ProjectName n c b
  | DoEndStruct decl => EndStruct decl
  end.

Fixpoint exec_all (ProjectName : string) (cs : list EmitCall) : Op :=
  match cs with
  | [] => skip
  | c :: cs' => exec ProjectName c ;; exec_all ProjectName cs'
  end.

(** The calls that reach [StartBlock], and those that reach [EndBlock]. *)
Definition opens_block (c : EmitCall) : bool :=
  match c with
  | DoStartBlock _ | DoStartClass _ _ _ _ | DoStartStruct _ _ _ => true
  | _ => false
  end.

Definition closes_block (c : EmitCall) : bool :=
  match c with
  | DoEndBlock _ _ | DoEndStruct _ => true
  | _ => false
  end.

Definition is_mismatch (l : LogLine) : bool :=
  match l with BlockEndMismatch => true | _ => false end.

(** Number of block-mismatch errors logged so far. *)
Definition mismatches (s : CodeFileGenerator) : Z :=
  Z.of_nat (List.length (filter is_mismatch (LogArticyEditor s))).

Definition count_calls (f : EmitCall -> bool) (cs : list EmitCall) : Z :=
  Z.of_nat (List.length (filter f cs)).

(** ** Vocabulary for [SplitName] *)

(** The string without its spaces. *)
Fixpoint remove_spaces (s : string) : string :=
  match s with
  | EmptyString => EmptyString
  | String c r =>
      if Ascii.eqb c SPACE then remove_spaces r else String c (remove_spaces r)
  end.

(** [spaced_after p s]: in [s], read after the character [p], every
    uppercase letter comes directly after a space. *)
Fixpoint spaced_after (p : ascii) (s : string) : bool :=
  match s with
  | EmptyString => true
  | String c r =>
      ((negb (FChar_IsUpper c) || Ascii.eqb p SPACE) && spaced_after c r)%bool
  end.

(** Every uppercase letter but a leading one comes directly after a
    space. *)
Definition spaced (s : string) : bool :=
  match s with
  | EmptyString => true
  | String c r => spaced_after c r
  end.

(** ** The dialogue-entity tooltip *)

(** What [CreateToolTipContent] reads from [ObjectToDisplay].  An
    interface the object does not implement ([Cast] gives null) is
    [None].  For the speaker, [Some None] is an object with a speaker
    whose asset is not found or has no display-name interface, so that
    [DisplayNameOfSpeaker] is null. *)
Record ArticyObject : Type := mkObject {
  AssetName : string;                   (* GetName() *)
  ClassName : string;                   (* GetClass()->GetName() *)
  DisplayNameOf : option string;        (* IArticyObjectWithDisplayName::GetDisplayName() *)
  SpeakerDisplayName : option (option string);
  TextOf : option string                (* IArticyObjectWithText::GetText() *)
}.

(** One slot of the info box: the key label, the value, whether it is
    drawn as important, and the text highlighted in the value. *)
Record InfoRow : Type := mkRow {
  RowLabel : string;
  RowValue : string;
  RowImportant : bool;
  RowHighlight : string
}.

Record ToolTipContent : Type := mkToolTip {
  NameText : string;
  InfoBox : list InfoRow
}.

(** [AddToToolTipInfoBox]; [HighlightText] is the member of that name.
    The label is the format ["{0}:"] applied to the key. *)
Definition AddToToolTipInfoBox (HighlightText : string) (Box : list InfoRow)
    (Key Value : string) (bImportant : bool) : list InfoRow :=
  (Box ++ [mkRow (Key ++ ":") Value bImportant
             (if FString_eq Key "Path" then HighlightText else "")])%list.

(** [CreateToolTipContent], down to the title and the rows of the info
    box; the Slate layout around them is left out.  The [LOCTEXT]
    keys and formats are taken in the source language.  Calling
    [GetDisplayName] through the null [DisplayNameOfSpeaker] is the
    failure [None]. *)
Definition CreateToolTipContent (HighlightText : string) (o : ArticyObject)
    : option ToolTipContent :=
  let NameText0 := AssetName o in
  let ClassText := "(" ++ ClassName o ++ ")" in
  let Box0 : list InfoRow := [] in
  let '(NameText1, bUsingDisplayName) :=
    match DisplayNameOf o with
    | Some DisplayName =>
        if negb (IsEmpty DisplayName) then (DisplayName, true) else (NameText0, false)
    | None => (NameText0, false)
    end in
  match
    match SpeakerDisplayName o with
    | None => Some Box0
    | Some None => None
    | Some (Some DisplayName) =>
        Some (AddToToolTipInfoBox HighlightText Box0 "Speaker" DisplayName true)
    end
  with
  | None => None
  | Some Box1 =>
      let Box2 :=
        match TextOf o with
        | Some Text =>
            if IsEmpty Text then Box1
            else AddToToolTipInfoBox HighlightText Box1 "Text"
                   (str1 DQUOTE ++ Text ++ str1 DQUOTE) true
        | None => Box1
        end in
      let Box3 :=
        if bUsingDisplayName
        then AddToToolTipInfoBox HighlightText Box2 "Asset Name" (AssetName o) false
        else Box2 in
      let Box4 := AddToToolTipInfoBox HighlightText Box3 "Class" ClassText false in
      Some (mkToolTip NameText1 Box4)
  end.

(** The labels the info box can show, in the order of the code. *)
Definition all_labels : list string := ["Speaker:"; "Text:"; "Asset Name:"; "Class:"].

(** [sub] is [l] with some elements left out. *)
Fixpoint sublist (sub l : list string) : bool :=
  match sub, l with
  | [], _ => true
  | _ :: _, [] => false
  | x :: sub', y :: l' =>
      if String.eqb x y then sublist sub' l' else sublist sub l'
  end.

(** Concrete objects. *)
Definition line_of_dialogue : ArticyObject :=
  mkObject "DFr_0x01" "DialogueFragment" (Some "Greeting") (Some (Some "Anna"))
           (Some "Hello").
Definition orphan_line : ArticyObject :=
  mkObject "DFr_0x02" "DialogueFragment" None (Some None) (Some "Hello").
Definition plain_asset : ArticyObject :=
  mkObject "Ent_0x03" "Entity" (Some "") None (Some "").

(** A small header-like program: a struct with a modifier and a field. *)
Definition struct_program : list EmitCall :=
  [DoStartStruct "FFoo" "A struct" true;
   DoAccessModifier "public";
   DoVariable "FText" "Greeting" "" "" true "EditAnywhere";
   DoEndStruct ""].

(** An existing file that cannot be read: the read fails and leaves its
    out-parameter empty. *)
Definition platform_unreadable : Platform :=
  mkPlatform (fun _ => true) (fun _ => (false, "")) false false
             (fun _ => true) (fun _ _ => true) (fun _ => true).

(** No source control. *)
Definition platform_no_source_control : Platform :=
  mkPlatform (fun _ => false) (fun _ => (false, "")) false true
             (fun _ => true) (fun _ _ => true) (fun _ => true).

Definition doc_open_block : CodeFileGenerator := mkGen "Foo.h" "new" 1 2 [].

(** The calls that emit lines only: no block is opened or closed. *)
Definition is_member_call (c : EmitCall) : bool :=
  negb (opens_block c || closes_block c).

(** [StartClass] and [StartStruct]. *)
Definition is_type_header (c : EmitCall) : bool :=
  match c with
  | DoStartClass _ _ _ _ | DoStartStruct _ _ _ => true
  | _ => false
  end.

(** The buffer ends with a line break. *)
Definition ends_with_newline (s : string) : Prop :=
  exists before, s = before ++ str1 LF.

(** The file an external call is about. *)
Definition event_file (e : Event) : option string :=
  match e with
  | EFileExists f | ELoadFileToString f | ECheckOutFile f
  | ESaveStringToFile _ f | EMarkFileForAdd f => Some f
  | EIsEnabled | EUsesCheckout | ELog _ => None
  end.

(** The external calls of a trace, without the log lines. *)
Definition is_call (e : Event) : bool :=
  match e with ELog _ => false | _ => true end.

Definition calls (tr : list Event) : list Event := filter is_call tr.

(** [WriteToFile] returns early without writing. *)
Definition skipped (P : Platform) (g : CodeFileGenerator) : bool :=
  (IsEmpty (FileContent g)
   || (FileExists P (Path g)
       && Equals (FileContent g) (snd (LoadFileToString P (Path g)))))%bool.

(** ** Vocabulary for the accessor of [Variable] *)

(** The word-split form of a name, in the words of the specification: a
    space is inserted before every uppercase letter that is not the
    first character. *)
Definition word_split (Name : string) : string :=
  match Name with
  | EmptyString => EmptyString
  | String c rest => String c (split_interior rest)
  end.

(** The buffer after a declaration followed by its accessor. *)
Definition with_accessor (Name Value Comment_ Specs : string)
    (s : CodeFileGenerator) : string :=
  FileContent s
  ++ (if IsEmpty Comment_ then ""
      else line_text (IndentCount s) ("/** " ++ Comment_ ++ " */") false)
  ++ line_text (IndentCount s) ("UPROPERTY(" ++ Specs ++ ")") false
  ++ line_text (IndentCount s)
       ("FText " ++ Name ++ (if IsEmpty Value then "" else " = " ++ Value)) true
  ++ line_text (IndentCount s)
       ("UFUNCTION(BlueprintPure, meta=(DisplayName=" ++ str1 DQUOTE
          ++ "Get " ++ word_split Name ++ " (Localized)" ++ str1 DQUOTE ++ "))")
       false
  ++ line_text (IndentCount s)
       ("FText Get" ++ Name ++ "() { return GetPropertyText(" ++ Name ++ "); }")
       false.

(** Every annotated [FText] declaration whose name is not an entry of
    [ReservedNames] gets the accessor. *)
Definition accessor_for_every_unlisted_name : Prop :=
  forall Name Value Comment_ Specs s,
    ~ In Name ReservedNames ->
    FileContent (Variable_ "FText" Name Value Comment_ true Specs s) =
    with_accessor Name Value Comment_ Specs s.

(* ================================================================= *)
(** * Properties *)

(** ** Strings *)

Lemma append_nil_r (s : string) : s ++ "" = s.
Proof. induction s as [|c s IH]; simpl; [reflexivity | now rewrite IH]. Qed.

Lemma append_assoc (a b c : string) : (a ++ b) ++ c = a ++ (b ++ c).
Proof. induction a as [|x a IH]; simpl; [reflexivity | now rewrite IH]. Qed.

Lemma length_append (a b : string) :
  String.length (a ++ b) = (String.length a + String.length b)%nat.
Proof. induction a as [|x a IH]; simpl; [reflexivity | now rewrite IH]. Qed.

Lemma append_inv_head (a b c : string) : a ++ b = a ++ c -> b = c.
Proof.
  induction a as [|x a IH]; simpl; intros H; [exact H |].
  injection H as H. now apply IH.
Qed.

(** ** SplitName *)

Section SplitNameFacts.

Lemma SplitName_loop_interior (Name : string) :
  forall i Result, (0 < i)%nat ->
    SplitName_loop i Name Result = Result ++ split_interior Name.
Proof.
  induction Name as [|c rest IH]; intros i Result Hi; simpl.
  - now rewrite append_nil_r.
  - assert (Hlt : Nat.ltb 0 i = true) by now apply Nat.ltb_lt.
    rewrite Hlt, andb_true_r, IH by lia.
    unfold AppendChar, str1.
    destruct (FChar_IsUpper c); now rewrite !append_assoc.
Qed.

Lemma SplitName_cons (c : ascii) (rest : string) :
  SplitName (String c rest) = String c (split_interior rest).
Proof.
  unfold SplitName; simpl.
  rewrite andb_false_r, SplitName_loop_interior by lia.
  reflexivity.
Qed.

Lemma SplitName_nil : SplitName "" = "".
Proof. reflexivity. Qed.

Lemma SPACE_not_upper : FChar_IsUpper SPACE = false.
Proof. reflexivity. Qed.

Lemma count_upper_split_interior (s : string) :
  count_upper (split_interior s) = count_upper s.
Proof.
  induction s as [|c r IH]; simpl; [reflexivity |].
  destruct (FChar_IsUpper c) eqn:E; simpl; rewrite ?SPACE_not_upper, ?E, IH;
    reflexivity.
Qed.

Lemma length_split_interior (s : string) :
  String.length (split_interior s) = (String.length s + count_upper s)%nat.
Proof.
  induction s as [|c r IH]; simpl; [reflexivity |].
  destruct (FChar_IsUpper c); simpl; rewrite IH; lia.
Qed.

Lemma split_interior_fixed (s : string) :
  count_upper s = 0%nat -> split_interior s = s.
Proof.
  induction s as [|c r IH]; simpl; [reflexivity |].
  destruct (FChar_IsUpper c); [discriminate |].
  intros H. now rewrite IH.
Qed.

Lemma split_interior_fixed_inv (s : string) :
  split_interior s = s -> count_upper s = 0%nat.
Proof.
  intros H. apply (f_equal String.length) in H.
  rewrite length_split_interior in H. lia.
Qed.

(** [SplitName] leaves a string alone exactly when no uppercase letter
    follows its first character. *)
Lemma SplitName_fixed_iff (s : string) :
  SplitName s = s <-> interior_upper s = 0%nat.
Proof.
  destruct s as [|c r]; [now split |].
  rewrite SplitName_cons; simpl. split.
  - intros H. injection H as H. now apply split_interior_fixed_inv.
  - intros H. now rewrite split_interior_fixed.
Qed.

Lemma interior_upper_SplitName (s : string) :
  interior_upper (SplitName s) = interior_upper s.
Proof.
  destruct s as [|c r]; [reflexivity |].
  rewrite SplitName_cons; simpl. apply count_upper_split_interior.
Qed.

Lemma SplitName_idempotent_iff (s : string) :
  SplitName (SplitName s) = SplitName s <-> interior_upper s = 0%nat.
Proof.
  rewrite SplitName_fixed_iff. now rewrite interior_upper_SplitName.
Qed.

Lemma no_upper_no_space_count (s : string) :
  no_upper_no_space s = true -> count_upper s = 0%nat.
Proof.
  induction s as [|c r IH]; simpl; [reflexivity |].
  destruct (FChar_IsUpper c); simpl; [discriminate |].
  intros H. apply andb_true_iff in H as [_ H]. now apply IH.
Qed.

Lemma is_token_interior (s : string) :
  is_token s = true -> interior_upper s = 0%nat.
Proof.
  destruct s as [|c r]; simpl; [discriminate |].
  intros H. apply andb_true_iff in H as [_ H].
  now apply no_upper_no_space_count.
Qed.

End SplitNameFacts.

(** C3, as stated, fails: ["Display Name"] is two uppercase-initial
    tokens separated by one space, and every application of [SplitName]
    puts one more space in front of the [N]. *)
Lemma SplitName_not_idempotent_on_split : ~ idempotent_on_already_split.
Proof.
  intros H.
  assert (Hs : already_split "Display Name").
  { exists ["Display"; "Name"]. split; [discriminate | split; reflexivity]. }
  specialize (H _ Hs). vm_compute in H. discriminate H.
Qed.

(** C3 (amended): [SplitName] returns a single uppercase-initial token
    unchanged, hence is idempotent on it; it is idempotent on exactly the
    inputs with no uppercase letter after the first character; and
    [SplitName "DisplayName" = "Display Name"]. *)
Theorem SplitName_idempotent_single_token :
  (forall s, is_token s = true ->
     SplitName s = s /\ SplitName (SplitName s) = SplitName s) /\
  (forall s, SplitName (SplitName s) = SplitName s <-> interior_upper s = 0%nat) /\
  SplitName "DisplayName" = "Display Name".
Proof.
  split; [| split].
  - intros s Htok.
    assert (H : SplitName s = s)
      by (apply SplitName_fixed_iff; now apply is_token_interior).
    split; [exact H | now rewrite !H].
  - exact SplitName_idempotent_iff.
  - reflexivity.
Qed.

Lemma SplitName_idempotent_single_token_witness :
  is_token "Display" = true /\
  SplitName "Display" = "Display" /\
  SplitName (SplitName "Display") = SplitName "Display".
Proof.
  split; [reflexivity |].
  apply (proj1 SplitName_idempotent_single_token "Display"). reflexivity.
Defined.

(** ** Lines *)

Lemma add_tabs_append (n : nat) :
  forall content, add_tabs n content = content ++ add_tabs n "".
Proof.
  induction n as [|k IH]; intros content; simpl.
  - now rewrite append_nil_r.
  - rewrite (IH (content ++ str1 TAB)), (IH (str1 TAB)).
    now rewrite append_assoc.
Qed.

Lemma FileContent_Line (Text : string) (bSemicolon : bool) (off : Z) (s : CodeFileGenerator) :
  FileContent (Line Text bSemicolon true off s) =
  FileContent s ++ line_text (IndentCount s + off) Text bSemicolon.
Proof.
  unfold Line, line_text, indentation; simpl.
  rewrite add_tabs_append. now rewrite append_assoc.
Qed.

Lemma FileContent_Line2 (Text : string) (bSemicolon : bool) (s : CodeFileGenerator) :
  FileContent (Line2 Text bSemicolon s) =
  FileContent s ++ line_text (IndentCount s) Text bSemicolon.
Proof. unfold Line2. now rewrite FileContent_Line, Z.add_0_r. Qed.

Lemma FileContent_Line1 (Text : string) (s : CodeFileGenerator) :
  FileContent (Line1 Text s) = FileContent s ++ line_text (IndentCount s) Text false.
Proof. unfold Line1. now rewrite FileContent_Line, Z.add_0_r. Qed.

(** [Line] touches the text buffer only. *)
Lemma Line_counters (Text : string) (semi ind : bool) (off : Z) (s : CodeFileGenerator) :
  IndentCount (Line Text semi ind off s) = IndentCount s /\
  BlockCount (Line Text semi ind off s) = BlockCount s /\
  LogArticyEditor (Line Text semi ind off s) = LogArticyEditor s /\
  Path (Line Text semi ind off s) = Path s.
Proof. unfold Line; simpl; auto. Qed.

(** Unfolds the emission primitives down to record projections. *)
Ltac unfold_ops :=
  unfold StartBlock, EndBlock, PushIndent, PopIndent, Comment, UPropertyMacro,
    UFunctionMacro, AccessModifier, Line0, Line1, Line2, Line, seq, when, skip,
    UE_LOG, set_BlockCount, set_IndentCount, set_FileContent in *.

(** ** The block tracker *)

Section BlockTracker.

Lemma StartBlock_counters (b : bool) (s : CodeFileGenerator) :
  BlockCount (StartBlock b s) = BlockCount s + 1 /\
  IndentCount (StartBlock b s) = IndentCount s + (if b then 1 else 0).
Proof. unfold_ops; destruct b; simpl; split; lia. Qed.

Lemma EndBlock_BlockCount (u semi : bool) (s : CodeFileGenerator) :
  BlockCount (EndBlock u semi s) =
  if BlockCount s =? 0 then 0 else BlockCount s - 1.
Proof.
  unfold_ops.
  destruct (BlockCount s =? 0) eqn:E0; destruct u; simpl;
    try (destruct (IndentCount s >? 0); simpl);
    try reflexivity; now apply Z.eqb_eq in E0.
Qed.

Lemma EndBlock_IndentCount (u semi : bool) (s : CodeFileGenerator) :
  IndentCount (EndBlock u semi s) =
  if (u && (IndentCount s >? 0))%bool then IndentCount s - 1 else IndentCount s.
Proof.
  unfold_ops.
  destruct (BlockCount s =? 0); destruct u; simpl;
    try (destruct (IndentCount s >? 0); simpl); reflexivity.
Qed.

Lemma EndBlock_FileContent (u semi : bool) (s : CodeFileGenerator) :
  FileContent (EndBlock u semi s) =
  FileContent s ++ line_text (IndentCount (EndBlock u semi s)) "}" semi.
Proof.
  rewrite EndBlock_IndentCount.
  unfold EndBlock, seq. rewrite FileContent_Line2. f_equal.
  - unfold_ops.
    destruct (BlockCount s =? 0); destruct u; simpl;
      try (destruct (IndentCount s >? 0); simpl); reflexivity.
  - f_equal. unfold_ops.
    destruct (BlockCount s =? 0); destruct u; simpl;
      try (destruct (IndentCount s >? 0); simpl); reflexivity.
Qed.

(** The counters stay non-negative. *)
Lemma wf_fresh (p : string) : wf (fresh p).
Proof. unfold wf; simpl; lia. Qed.

Lemma wf_Line (Text : string) (semi ind : bool) (off : Z) (s : CodeFileGenerator) :
  wf s -> wf (Line Text semi ind off s).
Proof. unfold wf, Line; simpl; auto. Qed.

Lemma wf_PushIndent (s : CodeFileGenerator) : wf s -> wf (PushIndent s).
Proof. unfold wf, PushIndent; simpl; lia. Qed.

Lemma wf_PopIndent (s : CodeFileGenerator) : wf s -> wf (PopIndent s).
Proof.
  unfold wf, PopIndent. destruct (IndentCount s >? 0) eqn:E; simpl; [| auto].
  apply Z.gtb_lt in E. lia.
Qed.

Lemma wf_StartBlock (b : bool) (s : CodeFileGenerator) : wf s -> wf (StartBlock b s).
Proof.
  unfold wf. destruct (StartBlock_counters b s) as [-> ->]. destruct b; lia.
Qed.

Lemma wf_EndBlock (u semi : bool) (s : CodeFileGenerator) : wf s -> wf (EndBlock u semi s).
Proof.
  unfold wf. rewrite EndBlock_BlockCount, EndBlock_IndentCount.
  destruct (BlockCount s =? 0) eqn:EB; destruct (u && (IndentCount s >? 0))%bool eqn:EI;
    try apply Z.eqb_neq in EB;
    try (apply andb_true_iff in EI as [_ EI]; apply Z.gtb_lt in EI); lia.
Qed.

Lemma wf_run_calls (cs : list BlockCall) :
  forall s, wf s -> wf (run_calls cs s).
Proof.
  induction cs as [|c cs IH]; intros s Hs; simpl; [exact Hs |].
  unfold seq. apply IH. destruct c; [now apply wf_StartBlock | now apply wf_EndBlock].
Qed.

Lemma run_calls_cons (c : BlockCall) (cs : list BlockCall) (s : CodeFileGenerator) :
  run_calls (c :: cs) s = run_calls cs (run_call c s).
Proof. reflexivity. Qed.

Lemma run_calls_nil (s : CodeFileGenerator) : run_calls [] s = s.
Proof. reflexivity. Qed.

Lemma run_calls_app (l1 l2 : list BlockCall) (s : CodeFileGenerator) :
  run_calls (l1 ++ l2) s = run_calls l2 (run_calls l1 s).
Proof.
  revert s; induction l1 as [|c l1 IH]; intros s; simpl; [reflexivity |].
  unfold seq. apply IH.
Qed.

(** A matched [EndBlock]: a block is open and, if it unindents, the
    depth is positive. *)
Lemma EndBlock_matched (b semi : bool) (s : CodeFileGenerator) :
  0 < BlockCount s ->
  (if b then 1 else 0) <= IndentCount s ->
  BlockCount (EndBlock b semi s) = BlockCount s - 1 /\
  IndentCount (EndBlock b semi s) = IndentCount s - (if b then 1 else 0).
Proof.
  intros HB HI. rewrite EndBlock_BlockCount, EndBlock_IndentCount.
  destruct (BlockCount s =? 0) eqn:EB; [apply Z.eqb_eq in EB; lia |].
  split; [reflexivity |].
  destruct b; simpl; [| lia].
  destruct (IndentCount s >? 0) eqn:EI; [reflexivity |].
  rewrite Z.gtb_ltb in EI. apply Z.ltb_ge in EI. lia.
Qed.

Lemma run_Balanced (cs : list BlockCall) :
  Balanced cs ->
  forall s, wf s ->
    BlockCount (run_calls cs s) = BlockCount s /\
    IndentCount (run_calls cs s) = IndentCount s.
Proof.
  induction 1 as [| b semi inner Hin IH | l1 l2 H1 IH1 H2 IH2]; intros s Hs.
  - simpl; auto.
  - rewrite run_calls_cons, run_calls_app, run_calls_cons, run_calls_nil.
    cbn [run_call].
    pose proof (wf_StartBlock b s Hs) as Hs1.
    destruct (StartBlock_counters b s) as [HB1 HI1].
    destruct (IH _ Hs1) as [HB2 HI2].
    destruct Hs as [HI0 HB0].
    destruct (EndBlock_matched b semi (run_calls inner (StartBlock b s))) as [HB3 HI3].
    + lia.
    + destruct b; lia.
    + split; lia.
  - rewrite run_calls_app.
    destruct (IH1 _ Hs) as [HB1 HI1].
    assert (Hs1 : wf (run_calls l1 s)) by now apply wf_run_calls.
    destruct (IH2 _ Hs1) as [HB2 HI2]. split; congruence.
Qed.

(** The check that runs accepts every balanced sequence. *)
Lemma balanced_from_Balanced (cs : list BlockCall) :
  Balanced cs ->
  forall open rest, balanced_from open (cs ++ rest) = balanced_from open rest.
Proof.
  induction 1 as [| b semi inner Hin IH | l1 l2 H1 IH1 H2 IH2]; intros open rest.
  - reflexivity.
  - simpl. rewrite <- app_assoc, IH. simpl.
    now rewrite Bool.eqb_reflx.
  - now rewrite <- app_assoc, IH1, IH2.
Qed.

Lemma Balanced_balancedb (cs : list BlockCall) : Balanced cs -> balancedb cs = true.
Proof.
  intros H. unfold balancedb.
  rewrite <- (app_nil_r cs), (balanced_from_Balanced cs H). reflexivity.
Qed.

(** The same result for the check that runs: with [open] the blocks
    open at the start, an accepted sequence closes all of them. *)
Lemma run_balanced_from (cs : list BlockCall) :
  forall open s,
    balanced_from open cs = true ->
    Z.of_nat (List.length open) <= BlockCount s ->
    indents_of open <= IndentCount s ->
    BlockCount (run_calls cs s) = BlockCount s - Z.of_nat (List.length open) /\
    IndentCount (run_calls cs s) = IndentCount s - indents_of open.
Proof.
  induction cs as [|c cs IH]; intros open s Hb HB HI.
  - destruct open; [| discriminate]. rewrite run_calls_nil. simpl; split; lia.
  - rewrite run_calls_cons.
    destruct c as [b | b semi]; cbn [run_call balanced_from] in Hb |- *.
    + destruct (StartBlock_counters b s) as [HB1 HI1].
      destruct (IH (b :: open) (StartBlock b s) Hb) as [HB2 HI2].
      * rewrite HB1. simpl List.length. lia.
      * rewrite HI1. simpl. lia.
      * rewrite HB2, HI2, HB1, HI1. simpl List.length. simpl indents_of. split; lia.
    + destruct open as [|b0 open]; [discriminate |].
      apply andb_true_iff in Hb as [Hbb Hb].
      apply Bool.eqb_prop in Hbb; subst b0.
      simpl List.length in HB. simpl indents_of in HI.
      assert (Hio : 0 <= indents_of open).
      { clear. induction open as [|x o IHo]; simpl; [lia | destruct x; lia]. }
      destruct (EndBlock_matched b semi s) as [HB1 HI1]; [lia | destruct b; lia |].
      destruct (IH open (EndBlock b semi s) Hb) as [HB2 HI2].
      * rewrite HB1. lia.
      * rewrite HI1. lia.
      * rewrite HB2, HI2, HB1, HI1. simpl List.length. simpl indents_of. split; lia.
Qed.

End BlockTracker.

(** C7: an [EndBlock] issued when no block is open leaves the open-block
    count at 0, records the block-mismatch diagnostic in the log, and
    still appends the closing-brace line (with its terminator when asked
    for). *)
Theorem EndBlock_without_open_block
    (s : CodeFileGenerator) (bUnindent bSemicolon : bool) :
  BlockCount s = 0 ->
  BlockCount (EndBlock bUnindent bSemicolon s) = 0 /\
  (exists later,
     LogArticyEditor (EndBlock bUnindent bSemicolon s) =
     (LogArticyEditor s ++ BlockEndMismatch :: later)%list) /\
  FileContent (EndBlock bUnindent bSemicolon s) =
    FileContent s ++
    line_text (IndentCount (EndBlock bUnindent bSemicolon s)) "}" bSemicolon.
Proof.
  intros H0. split; [| split].
  - rewrite EndBlock_BlockCount, H0. reflexivity.
  - unfold_ops. rewrite H0. simpl.
    destruct bUnindent; simpl.
    + destruct (IndentCount s >? 0); simpl.
      * exists []. reflexivity.
      * exists [IndentUnderflow]. now rewrite <- app_assoc.
    + exists []. reflexivity.
  - apply EndBlock_FileContent.
Qed.

Lemma EndBlock_without_open_block_witness :
  BlockCount (fresh "Foo.h") = 0 /\
  BlockCount (EndBlock false true (fresh "Foo.h")) = 0 /\
  In BlockEndMismatch (LogArticyEditor (EndBlock false true (fresh "Foo.h"))) /\
  FileContent (EndBlock false true (fresh "Foo.h")) = "};" ++ str1 LF.
Proof.
  split; [reflexivity |].
  destruct (EndBlock_without_open_block (fresh "Foo.h") false true eq_refl)
    as [HB [[later HL] HF]].
  split; [exact HB | split].
  - rewrite HL. apply in_or_app. right. now left.
  - rewrite HF. reflexivity.
Defined.

(** C8: a balanced sequence of [StartBlock]/[EndBlock] calls, run on a
    generator whose counters are non-negative, leaves the open-block
    count and the indent depth as they were before the sequence; started
    with no open block, it ends with none. *)
Theorem balanced_calls_restore_counters
    (cs : list BlockCall) (s : CodeFileGenerator) :
  Balanced cs ->
  wf s ->
  BlockCount (run_calls cs s) = BlockCount s /\
  IndentCount (run_calls cs s) = IndentCount s /\
  (BlockCount s = 0 -> BlockCount (run_calls cs s) = 0).
Proof.
  intros Hbal Hs.
  destruct (run_Balanced cs Hbal s Hs) as [HB HI].
  repeat split; [exact HB | exact HI | congruence].
Qed.

Lemma Balanced_nested_calls : Balanced nested_calls.
Proof.
  apply (Balanced_block true true [CallStartBlock false; CallEndBlock false false]).
  apply (Balanced_block false false []).
  apply Balanced_nil.
Qed.

Lemma balanced_calls_restore_counters_witness :
  BlockCount (run_calls nested_calls (fresh "Foo.h")) = 0 /\
  IndentCount (run_calls nested_calls (fresh "Foo.h")) = 0.
Proof.
  destruct (balanced_calls_restore_counters nested_calls (fresh "Foo.h")
              Balanced_nested_calls (wf_fresh "Foo.h")) as [HB [HI _]].
  split; [exact HB | exact HI].
Defined.

(** C10, as stated, fails: at depth 0 the mismatched [EndBlock] with
    [bUnindent] reaches [PopIndent], which leaves the depth at 0. *)
Lemma mismatched_unindent_at_depth_zero : ~ mismatched_unindent_decreases.
Proof.
  intros H. specialize (H (fresh "Foo.h") false eq_refl).
  vm_compute in H. discriminate H.
Qed.

(** C10 (amended): an [EndBlock] with [bUnindent] issued when no block is
    open still runs [PopIndent]: the open-block count stays 0, and the
    indent depth goes down by one when it is positive (so depth and
    open-block count leave lockstep) and stays as it is at depth 0. *)
Theorem EndBlock_mismatch_still_unindents
    (s : CodeFileGenerator) (bSemicolon : bool) :
  BlockCount s = 0 ->
  EndBlock true bSemicolon s =
    Line2 "}" bSemicolon (PopIndent (UE_LOG BlockEndMismatch s)) /\
  BlockCount (EndBlock true bSemicolon s) = BlockCount s /\
  (0 < IndentCount s ->
     IndentCount (EndBlock true bSemicolon s) = IndentCount s - 1) /\
  (IndentCount s <= 0 ->
     IndentCount (EndBlock true bSemicolon s) = IndentCount s).
Proof.
  intros H0. split; [| split; [| split]].
  - unfold EndBlock, seq, when. now rewrite H0.
  - rewrite EndBlock_BlockCount, H0. reflexivity.
  - intros Hpos. rewrite EndBlock_IndentCount. simpl.
    destruct (IndentCount s >? 0) eqn:E; [reflexivity |].
    rewrite Z.gtb_ltb in E. apply Z.ltb_ge in E. lia.
  - intros Hle. rewrite EndBlock_IndentCount. simpl.
    destruct (IndentCount s >? 0) eqn:E; [| reflexivity].
    apply Z.gtb_lt in E. lia.
Qed.

Lemma EndBlock_mismatch_still_unindents_witness :
  BlockCount doc_indented_no_block = 0 /\
  IndentCount doc_indented_no_block = 1 /\
  BlockCount (EndBlock true false doc_indented_no_block) = 0 /\
  IndentCount (EndBlock true false doc_indented_no_block) = 0.
Proof.
  destruct (EndBlock_mismatch_still_unindents doc_indented_no_block false eq_refl)
    as [_ [HB [HI _]]].
  split; [reflexivity | split; [reflexivity | split]].
  - rewrite HB. reflexivity.
  - rewrite HI; [reflexivity | vm_compute; reflexivity].
Defined.

(** ** The declaration builder *)

Lemma IndentCount_Line1 (Text : string) (s : CodeFileGenerator) :
  IndentCount (Line1 Text s) = IndentCount s.
Proof. reflexivity. Qed.

Lemma IndentCount_Line2 (Text : string) (semi : bool) (s : CodeFileGenerator) :
  IndentCount (Line2 Text semi s) = IndentCount s.
Proof. reflexivity. Qed.

Lemma wf_Variable (Type_ Name Value Comment_ : string) (bUproperty : bool)
    (Specs : string) (s : CodeFileGenerator) :
  wf s -> wf (Variable_ Type_ Name Value Comment_ bUproperty Specs s).
Proof.
  unfold wf, Variable_, seq, when.
  destruct (negb (IsEmpty Comment_)), bUproperty, (Equals Type_ "FText"),
    (negb (Contains ReservedNames Name)); simpl; auto.
Qed.

Lemma wf_StartClass (ProjectName Classname Comment_ : string) (bUClass : bool)
    (Specs : string) (s : CodeFileGenerator) :
  wf s -> wf (StartClass ProjectName Classname Comment_ bUClass Specs s).
Proof.
  intros Hs. unfold StartClass, seq, when.
  destruct (negb (IsEmpty Comment_)), bUClass; unfold skip, Comment, Line0, Line1, seq;
    repeat (apply wf_StartBlock || apply wf_Line); exact Hs.
Qed.

Lemma wf_StartStruct (ProjectName Structname Comment_ : string) (bUStruct : bool)
    (s : CodeFileGenerator) :
  wf s -> wf (StartStruct ProjectName Structname Comment_ bUStruct s).
Proof.
  intros Hs. unfold StartStruct, seq, when.
  destruct (negb (IsEmpty Comment_)), bUStruct; unfold skip, Comment, Line0, Line1, seq;
    repeat (apply wf_StartBlock || apply wf_Line); exact Hs.
Qed.

Lemma wf_EndStruct (InlineDeclaration : string) (s : CodeFileGenerator) :
  wf s -> wf (EndStruct InlineDeclaration s).
Proof.
  intros Hs. unfold EndStruct, seq, when.
  destruct (negb (IsEmpty InlineDeclaration)); unfold skip, Line2;
    repeat (apply wf_EndBlock || apply wf_Line); exact Hs.
Qed.

(** [ReservedNames.Contains] compares with [operator==], which ignores
    letter case. *)
Remark ReservedNames_ignore_case :
  Contains ReservedNames "Text" = true /\
  Contains ReservedNames "text" = true /\
  Contains ReservedNames "Greeting" = false.
Proof. repeat split. Qed.

(** A class with one member: header line, braces at the depth of the
    header, the member one level deeper. *)
Example class_Foo :
  FileContent
    ((StartClass "Game" "Foo" "" false "" ;;
      Variable_ "int32" "Bar" "0" "" false "" ;;
      EndBlock true true) (fresh "Foo.h")) =
  "class Foo" ++ str1 LF
  ++ "{" ++ str1 LF
  ++ str1 TAB ++ "int32 Bar = 0;" ++ str1 LF
  ++ "};" ++ str1 LF.
Proof. reflexivity. Qed.

(** The text [Variable] appends when the test
    [ReservedNames.Contains(Name)] of the code fails. *)
Lemma Variable_accessor_text
    (Name Value Comment_ Specs : string) (s : CodeFileGenerator) :
  Contains ReservedNames Name = false ->
  FileContent (Variable_ "FText" Name Value Comment_ true Specs s) =
    FileContent s
    ++ (if IsEmpty Comment_ then ""
        else line_text (IndentCount s) ("/** " ++ Comment_ ++ " */") false)
    ++ line_text (IndentCount s) ("UPROPERTY(" ++ Specs ++ ")") false
    ++ line_text (IndentCount s)
         ("FText " ++ Name ++ (if IsEmpty Value then "" else " = " ++ Value)) true
    ++ line_text (IndentCount s)
         ("UFUNCTION(BlueprintPure, meta=(DisplayName=" ++ str1 DQUOTE
            ++ "Get " ++ SplitName Name ++ " (Localized)" ++ str1 DQUOTE ++ "))")
         false
    ++ line_text (IndentCount s)
         ("FText Get" ++ Name ++ "() { return GetPropertyText(" ++ Name ++ "); }")
         false.
Proof.
  intros Hres. unfold Variable_, seq, when, Comment, UPropertyMacro.
  rewrite Hres. cbn [negb andb Equals String.eqb Ascii.eqb Bool.eqb].
  assert (E : ("FText" =? "FText")%string = true) by reflexivity.
  rewrite ?E.
  repeat rewrite ?FileContent_Line1, ?FileContent_Line2,
    ?IndentCount_Line1, ?IndentCount_Line2.
  unfold accessor_macro, accessor_method.
  destruct (IsEmpty Comment_), (IsEmpty Value); cbn [negb];
    repeat rewrite ?FileContent_Line1, ?FileContent_Line2,
      ?IndentCount_Line1, ?IndentCount_Line2;
    unfold skip; rewrite ?append_assoc, ?append_nil_r; reflexivity.
Qed.

(** [Contains] fails exactly when the name differs from every entry
    even with letter case ignored. *)
Lemma Contains_false_iff (arr : list string) (x : string) :
  Contains arr x = false <->
  forall y, In y arr -> ToLower y <> ToLower x.
Proof.
  unfold Contains. induction arr as [|a arr IH]; simpl.
  - split; [intros _ y [] | reflexivity].
  - rewrite orb_false_iff, IH. unfold FString_eq. rewrite String.eqb_neq.
    split.
    + intros [Ha Harr] y [<- | Hy]; [exact Ha | now apply Harr].
    + intros H. split; [apply H; now left | intros y Hy; apply H; now right].
Qed.

Lemma SplitName_word_split (Name : string) : SplitName Name = word_split Name.
Proof. destruct Name as [|c rest]; [reflexivity | apply SplitName_cons]. Qed.

(** C6, as stated, fails: ["menutext"] is not an entry of the reserved
    list, but [Contains] compares ignoring case and finds ["MenuText"],
    so the declaration gets no accessor. *)
Lemma Variable_unlisted_name_without_accessor :
  ~ accessor_for_every_unlisted_name.
Proof.
  intros H.
  assert (Hnot : ~ In "menutext" ReservedNames).
  { intros Hin. cbn in Hin.
    repeat (destruct Hin as [Hin | Hin]; [discriminate Hin |]). exact Hin. }
  specialize (H "menutext" "" "" "" (fresh "Foo.h") Hnot).
  vm_compute in H. discriminate H.
Qed.

(** C6 (amended): [Variable] for an [FText] property with [bUproperty]
    set and a name that differs from every reserved name even when
    letter case is ignored appends, after the optional comment, the
    [UPROPERTY] line and the field declaration, the accessor: a
    [UFUNCTION] line whose [DisplayName] is ["Get "], the name with a
    space before every uppercase letter after the first, and
    [" (Localized)"], then the method [Get<Name>] whose body returns
    [GetPropertyText(<Name>)]. *)
Theorem Variable_FText_accessor_unreserved
    (Name Value Comment_ Specs : string) (s : CodeFileGenerator) :
  (forall r, In r ReservedNames -> ToLower r <> ToLower Name) ->
  FileContent (Variable_ "FText" Name Value Comment_ true Specs s) =
    FileContent s
    ++ (if IsEmpty Comment_ then ""
        else line_text (IndentCount s) ("/** " ++ Comment_ ++ " */") false)
    ++ line_text (IndentCount s) ("UPROPERTY(" ++ Specs ++ ")") false
    ++ line_text (IndentCount s)
         ("FText " ++ Name ++ (if IsEmpty Value then "" else " = " ++ Value)) true
    ++ line_text (IndentCount s)
         ("UFUNCTION(BlueprintPure, meta=(DisplayName=" ++ str1 DQUOTE
            ++ "Get " ++ word_split Name ++ " (Localized)" ++ str1 DQUOTE ++ "))")
         false
    ++ line_text (IndentCount s)
         ("FText Get" ++ Name ++ "() { return GetPropertyText(" ++ Name ++ "); }")
         false.
Proof.
  intros Hres. apply Contains_false_iff in Hres.
  rewrite (Variable_accessor_text Name Value Comment_ Specs s Hres).
  now rewrite SplitName_word_split.
Qed.

Lemma unreserved_QuestTitle :
  forall r, In r ReservedNames -> ToLower r <> ToLower "QuestTitle".
Proof.
  intros r Hin. cbn in Hin.
  repeat (destruct Hin as [<- | Hin]; [vm_compute; discriminate |]).
  contradiction.
Qed.

Lemma unreserved_Greeting :
  forall r, In r ReservedNames -> ToLower r <> ToLower "Greeting".
Proof.
  intros r Hin. cbn in Hin.
  repeat (destruct Hin as [<- | Hin]; [vm_compute; discriminate |]).
  contradiction.
Qed.

Lemma Variable_FText_accessor_unreserved_witness :
  FileContent (Variable_ "FText" "QuestTitle" "" "" true "" (fresh "Foo.h")) =
    "UPROPERTY()" ++ str1 LF
    ++ "FText QuestTitle;" ++ str1 LF
    ++ "UFUNCTION(BlueprintPure, meta=(DisplayName=" ++ str1 DQUOTE
    ++ "Get Quest Title (Localized)" ++ str1 DQUOTE ++ "))" ++ str1 LF
    ++ "FText GetQuestTitle() { return GetPropertyText(QuestTitle); }" ++ str1 LF /\
  FileContent (Variable_ "FText" "Greeting" "" "" true "" (fresh "Foo.h")) =
    "UPROPERTY()" ++ str1 LF
    ++ "FText Greeting;" ++ str1 LF
    ++ "UFUNCTION(BlueprintPure, meta=(DisplayName=" ++ str1 DQUOTE
    ++ "Get Greeting (Localized)" ++ str1 DQUOTE ++ "))" ++ str1 LF
    ++ "FText GetGreeting() { return GetPropertyText(Greeting); }" ++ str1 LF.
Proof.
  split.
  - rewrite (Variable_FText_accessor_unreserved "QuestTitle" "" "" ""
               (fresh "Foo.h") unreserved_QuestTitle).
    reflexivity.
  - rewrite (Variable_FText_accessor_unreserved "Greeting" "" "" ""
               (fresh "Foo.h") unreserved_Greeting).
    reflexivity.
Defined.

(** ** The persistence gate *)

(** Unfolds one call of [WriteToFile] down to the trace it builds. *)
Ltac unfold_io :=
  unfold any_failure, count, mutations, trace, returned, WriteToFile,
    write_changed, io_when, bind, ret, log, call_FileExists,
    call_LoadFileToString, call_IsEnabled, call_UsesCheckout,
    call_CheckOutFile, call_SaveStringToFile, call_MarkFileForAdd, emit in *.

(** Splits on every answer [WriteToFile] branches on. *)
Ltac io_cases P g :=
  destruct (IsEmpty (FileContent g)) eqn:Eempty;
  destruct (BlockCount g >? 0) eqn:Eblocks;
  destruct (FileExists P (Path g)) eqn:Eexists;
  destruct (Equals (FileContent g) (snd (LoadFileToString P (Path g)))) eqn:Esame;
  destruct (IsEnabled P) eqn:Eenabled;
  destruct (UsesCheckout P) eqn:Echeckout;
  destruct (SaveStringToFile P (FileContent g) (Path g)) eqn:Esaved;
  cbn.

Section PersistenceGate.
Variable P : Platform.
Variable g : CodeFileGenerator.

(** The whole trace of one call, branch by branch. *)
Lemma trace_WriteToFile :
  trace P g =
  if IsEmpty (FileContent g) then []
  else
    ((if BlockCount g >? 0 then [ELog (BlockCountWhenWriting (BlockCount g))] else [])
     ++ EFileExists (Path g)
     :: (if FileExists P (Path g) then [ELoadFileToString (Path g)] else [])
     ++ (if (FileExists P (Path g)
             && Equals (FileContent g) (snd (LoadFileToString P (Path g))))%bool
         then []
         else
           EIsEnabled
           :: (if IsEnabled P then [EUsesCheckout] else [])
           ++ ESaveStringToFile (FileContent g) (Path g)
           :: (if SaveStringToFile P (FileContent g) (Path g)
               then EIsEnabled
                    :: (if IsEnabled P then [EMarkFileForAdd (Path g)] else [])
               else [])))%list.
Proof. unfold_io. io_cases P g; reflexivity. Qed.

(** The calls that can change something, branch by branch. *)
Lemma mutations_WriteToFile :
  mutations (trace P g) =
  if (IsEmpty (FileContent g)
      || (FileExists P (Path g)
          && Equals (FileContent g) (snd (LoadFileToString P (Path g)))))%bool
  then []
  else
    ESaveStringToFile (FileContent g) (Path g)
    :: (if (SaveStringToFile P (FileContent g) (Path g) && IsEnabled P)%bool
        then [EMarkFileForAdd (Path g)]
        else []).
Proof. rewrite trace_WriteToFile. unfold mutations. io_cases P g; reflexivity. Qed.

(** [bFileExisted] is never set, so the checkout is never reached. *)
Lemma WriteToFile_never_checks_out : count is_CheckOut (trace P g) = 0%nat.
Proof. rewrite trace_WriteToFile. unfold count. io_cases P g; reflexivity. Qed.

Lemma count_Save_WriteToFile :
  count is_Save (trace P g) = List.length (filter is_Save (mutations (trace P g))).
Proof.
  rewrite mutations_WriteToFile, trace_WriteToFile. unfold count.
  io_cases P g; reflexivity.
Qed.

Lemma count_MarkForAdd_WriteToFile :
  count is_MarkForAdd (trace P g) =
  List.length (filter is_MarkForAdd (mutations (trace P g))).
Proof.
  rewrite mutations_WriteToFile, trace_WriteToFile. unfold count.
  io_cases P g; reflexivity.
Qed.

End PersistenceGate.

(** C1: the code does not do what the claim says.  The target exists
    with other content, source control is enabled and uses checkout, yet
    the call makes no [CheckOutFile] call: it writes, and then marks the
    existing file for add. *)
Theorem WriteToFile_existing_changed_no_checkout :
  FileExists platform_tracked (Path doc_new) = true /\
  Equals (FileContent doc_new)
         (snd (LoadFileToString platform_tracked (Path doc_new))) = false /\
  IsEnabled platform_tracked = true /\
  UsesCheckout platform_tracked = true /\
  trace platform_tracked doc_new =
    [EFileExists "Foo.h"; ELoadFileToString "Foo.h"; EIsEnabled; EUsesCheckout;
     ESaveStringToFile "new" "Foo.h"; EIsEnabled; EMarkFileForAdd "Foo.h"] /\
  count is_CheckOut (trace platform_tracked doc_new) = 0%nat.
Proof. repeat split. Qed.




(** C4: when the text buffer is empty, or the file exists and what is
    read from it equals the generated text, [WriteToFile] returns at
    once: no write, no checkout and no mark-for-add is performed, so
    nothing on disk changes.  It makes no call at all in the first case
    and only the existence test and the read in the second. *)
Theorem WriteToFile_skips (P : Platform) (g : CodeFileGenerator) :
  IsEmpty (FileContent g) = true \/
  (FileExists P (Path g) = true /\
   snd (LoadFileToString P (Path g)) = FileContent g) ->
  returned P g = tt /\
  mutations (trace P g) = [] /\
  count is_Save (trace P g) = 0%nat /\
  count is_CheckOut (trace P g) = 0%nat /\
  count is_MarkForAdd (trace P g) = 0%nat /\
  (IsEmpty (FileContent g) = true -> trace P g = []) /\
  (IsEmpty (FileContent g) = false ->
     filter (fun e => match e with ELog _ => false | _ => true end) (trace P g) =
     [EFileExists (Path g); ELoadFileToString (Path g)]).
Proof.
  intros H.
  assert (Hskip :
    (IsEmpty (FileContent g)
     || (FileExists P (Path g)
         && Equals (FileContent g) (snd (LoadFileToString P (Path g)))))%bool = true).
  { destruct H as [-> | [-> ->]]; [reflexivity |].
    unfold Equals. rewrite String.eqb_refl. now rewrite orb_true_r. }
  assert (Hmut : mutations (trace P g) = [])
    by (rewrite mutations_WriteToFile; now rewrite Hskip).
  split; [now destruct (returned P g) |].
  split; [exact Hmut |].
  split; [now rewrite count_Save_WriteToFile, Hmut |].
  split; [apply WriteToFile_never_checks_out |].
  split; [now rewrite count_MarkForAdd_WriteToFile, Hmut |].
  split.
  - intros He. rewrite trace_WriteToFile. now rewrite He.
  - intros He. rewrite He in Hskip. simpl in Hskip.
    apply andb_true_iff in Hskip as [Hex Hsame].
    rewrite trace_WriteToFile, He, Hex, Hsame.
    destruct (BlockCount g >? 0); reflexivity.
Qed.

Lemma WriteToFile_skips_witness :
  mutations (trace platform_tracked doc_old) = [] /\
  mutations (trace platform_tracked doc_empty) = [].
Proof.
  split.
  - destruct (WriteToFile_skips platform_tracked doc_old)
      as (_ & Hmut & _); [right; split; reflexivity | exact Hmut].
  - destruct (WriteToFile_skips platform_tracked doc_empty)
      as (_ & Hmut & _); [left; reflexivity | exact Hmut].
Defined.

(** C5, as stated, fails twice: with an empty text buffer nothing is
    written at all, and when the write fails no mark-for-add follows. *)
Lemma WriteToFile_new_file_not_always_marked :
  ~ writes_then_marks platform_absent doc_empty /\
  ~ writes_then_marks platform_absent_write_fails doc_new.
Proof.
  split; intros H; specialize (H eq_refl eq_refl); vm_compute in H;
    discriminate H.
Qed.

(** C5 (amended): for a non-empty text buffer and a target path that does
    not exist, with source control enabled, exactly one write is
    performed and no checkout; when the write succeeds, exactly one
    [MarkFileForAdd] on the path follows it, and when it fails none
    does. *)
Theorem WriteToFile_new_file (P : Platform) (g : CodeFileGenerator) :
  IsEmpty (FileContent g) = false ->
  FileExists P (Path g) = false ->
  IsEnabled P = true ->
  mutations (trace P g) =
    ESaveStringToFile (FileContent g) (Path g)
    :: (if SaveStringToFile P (FileContent g) (Path g)
        then [EMarkFileForAdd (Path g)]
        else []) /\
  count is_Save (trace P g) = 1%nat /\
  count is_CheckOut (trace P g) = 0%nat /\
  count is_MarkForAdd (trace P g) =
    (if SaveStringToFile P (FileContent g) (Path g) then 1 else 0)%nat.
Proof.
  intros Hne Hex Hen.
  assert (Hmut : mutations (trace P g) =
    ESaveStringToFile (FileContent g) (Path g)
    :: (if SaveStringToFile P (FileContent g) (Path g)
        then [EMarkFileForAdd (Path g)]
        else [])).
  { rewrite mutations_WriteToFile, Hne, Hex, Hen. simpl.
    now rewrite andb_true_r. }
  split; [exact Hmut |].
  split; [| split].
  - rewrite count_Save_WriteToFile, Hmut.
    now destruct (SaveStringToFile P (FileContent g) (Path g)).
  - apply WriteToFile_never_checks_out.
  - rewrite count_MarkForAdd_WriteToFile, Hmut.
    now destruct (SaveStringToFile P (FileContent g) (Path g)).
Qed.

Lemma WriteToFile_new_file_witness :
  mutations (trace platform_absent doc_new) =
    [ESaveStringToFile "new" "Foo.h"; EMarkFileForAdd "Foo.h"] /\
  mutations (trace platform_absent_write_fails doc_new) =
    [ESaveStringToFile "new" "Foo.h"].
Proof.
  split.
  - destruct (WriteToFile_new_file platform_absent doc_new eq_refl eq_refl eq_refl)
      as (Hmut & _). exact Hmut.
  - destruct (WriteToFile_new_file platform_absent_write_fails doc_new
                eq_refl eq_refl eq_refl) as (Hmut & _). exact Hmut.
Defined.

(** C9: whenever [WriteToFile] performs a write, the write succeeds and
    source control is enabled, a [MarkFileForAdd] call on the target path
    follows the write, whether or not the file existed before. *)
Theorem WriteToFile_marks_after_successful_write
    (P : Platform) (g : CodeFileGenerator) (c p : string) :
  In (ESaveStringToFile c p) (trace P g) ->
  SaveStringToFile P c p = true ->
  IsEnabled P = true ->
  c = FileContent g /\ p = Path g /\
  exists before after,
    trace P g = (before ++ ESaveStringToFile c p :: after)%list /\
    In (EMarkFileForAdd (Path g)) after.
Proof.
  intros Hin Hok Hen.
  assert (Hcp : c = FileContent g /\ p = Path g).
  { rewrite trace_WriteToFile in Hin. clear Hok.
    io_cases P g; cbn in Hin;
      repeat (destruct Hin as [Hin | Hin]; try discriminate Hin);
      try contradiction; injection Hin as <- <-; auto. }
  destruct Hcp as [-> ->]. split; [reflexivity | split; [reflexivity |]].
  rewrite trace_WriteToFile in Hin |- *. rewrite Hok, Hen in *.
  destruct (IsEmpty (FileContent g)); [contradiction |].
  destruct (FileExists P (Path g)
            && Equals (FileContent g) (snd (LoadFileToString P (Path g))))%bool
    eqn:Eskip.
  - exfalso. rewrite app_nil_r in Hin.
    apply in_app_or in Hin as [Hin | Hin].
    + destruct (BlockCount g >? 0); cbn in Hin;
        repeat (destruct Hin as [Hin | Hin]; try discriminate Hin); contradiction.
    + destruct Hin as [Hin | Hin]; [discriminate Hin |].
      destruct (FileExists P (Path g)); cbn in Hin;
        repeat (destruct Hin as [Hin | Hin]; try discriminate Hin); contradiction.
  - eexists
      ((if BlockCount g >? 0 then [ELog (BlockCountWhenWriting (BlockCount g))] else [])
       ++ EFileExists (Path g)
       :: (if FileExists P (Path g) then [ELoadFileToString (Path g)] else [])
       ++ [EIsEnabled; EUsesCheckout])%list.
    exists [EIsEnabled; EMarkFileForAdd (Path g)].
    split; [| right; left; reflexivity].
    rewrite <- !app_assoc. cbn. f_equal. f_equal.
    rewrite <- !app_assoc. reflexivity.
Qed.

Lemma WriteToFile_marks_after_successful_write_witness :
  FileExists platform_tracked (Path doc_new) = true /\
  exists before after,
    trace platform_tracked doc_new =
      (before ++ ESaveStringToFile "new" "Foo.h" :: after)%list /\
    In (EMarkFileForAdd "Foo.h") after.
Proof.
  split; [reflexivity |].
  destruct (WriteToFile_marks_after_successful_write
              platform_tracked doc_new "new" "Foo.h") as (_ & _ & H).
  - vm_compute. do 4 right. left. reflexivity.
  - reflexivity.
  - reflexivity.
  - exact H.
Defined.

(* ================================================================= *)
(** * Further properties of the code *)

(** ** SplitName *)

(** X1: [SplitName] lengthens a name by one character for every
    uppercase letter after the first position. *)
Theorem SplitName_length (s : string) :
  String.length (SplitName s) = (String.length s + interior_upper s)%nat.
Proof.
  destruct s as [|c r]; [reflexivity |].
  rewrite SplitName_cons. simpl. now rewrite length_split_interior.
Qed.

Lemma remove_spaces_split_interior (s : string) :
  remove_spaces (split_interior s) = remove_spaces s.
Proof.
  induction s as [|c r IH]; simpl; [reflexivity |].
  destruct (FChar_IsUpper c); simpl; rewrite IH; reflexivity.
Qed.

(** X2: [SplitName] only inserts spaces: with the spaces taken out, its
    result and its argument are the same string. *)
Theorem SplitName_remove_spaces (s : string) :
  remove_spaces (SplitName s) = remove_spaces s.
Proof.
  destruct s as [|c r]; [reflexivity |].
  rewrite SplitName_cons. simpl. now rewrite remove_spaces_split_interior.
Qed.

Lemma spaced_after_split_interior (s : string) :
  forall p, spaced_after p (split_interior s) = true.
Proof.
  induction s as [|c r IH]; intros p; simpl; [reflexivity |].
  destruct (FChar_IsUpper c) eqn:E; simpl.
  - rewrite E, IH. reflexivity.
  - rewrite E, IH. reflexivity.
Qed.

(** X3: in the result of [SplitName] every uppercase letter, except one
    in first position, stands directly after a space; the first
    character is never preceded by a space. *)
Theorem SplitName_spaced (s : string) :
  spaced (SplitName s) = true /\
  (forall c r, s = String c r -> exists r', SplitName s = String c r').
Proof.
  split.
  - destruct s as [|c r]; [reflexivity |].
    rewrite SplitName_cons. simpl. apply spaced_after_split_interior.
  - intros c r ->. rewrite SplitName_cons. eauto.
Qed.

Lemma SplitName_spaced_witness :
  exists r', SplitName "MenuText" = String "M"%char r'.
Proof.
  apply (proj2 (SplitName_spaced "MenuText") "M"%char "enuText"). reflexivity.
Defined.

(** ** Lines and declarations *)

Lemma length_add_tabs (n : nat) :
  forall content, String.length (add_tabs n content) = (String.length content + n)%nat.
Proof.
  induction n as [|k IH]; intros content; simpl; [lia |].
  rewrite IH, length_append. simpl. lia.
Qed.

(** X4: [Line] makes the buffer longer by the indentation, the text, the
    optional semicolon and the line break.  The indentation is
    [IndentCount + IndentOffset] tabs, none when that sum is not
    positive or [bIndent] is off. *)
Theorem Line_length
    (Text : string) (bSemicolon bIndent : bool) (IndentOffset : Z)
    (s : CodeFileGenerator) :
  String.length (FileContent (Line Text bSemicolon bIndent IndentOffset s)) =
  (String.length (FileContent s)
   + (if bIndent then Z.to_nat (Z.max 0 (IndentCount s + IndentOffset)) else 0)
   + String.length Text
   + (if bSemicolon then 1 else 0)
   + 1)%nat.
Proof.
  unfold Line; simpl. rewrite !length_append.
  destruct bIndent, bSemicolon; simpl; rewrite ?length_add_tabs; lia.
Qed.

Lemma substring_last (t : string) (c : ascii) :
  substring (String.length t) 1 (t ++ str1 c) = str1 c.
Proof. induction t as [|x t IH]; simpl; [reflexivity | exact IH]. Qed.

Lemma EndsWith_colon_appended (t : string) : EndsWith (t ++ ":") ":" = true.
Proof.
  unfold EndsWith. rewrite length_append. simpl String.length.
  replace (String.length t + 1 - 1)%nat with (String.length t) by lia.
  assert (H : Nat.leb 1 (String.length t + 1) = true) by (apply Nat.leb_le; lia).
  rewrite H. change ":" with (str1 ":"%char) at 1.
  rewrite substring_last. reflexivity.
Qed.

(** X5: [AccessModifier] adds the colon only when it is missing: a
    label without a final colon and the same label with one give the
    same generator. *)
Theorem AccessModifier_colon (Text : string) (s : CodeFileGenerator) :
  EndsWith Text ":" = false ->
  AccessModifier (Text ++ ":") s = AccessModifier Text s.
Proof.
  intros H. unfold AccessModifier.
  rewrite EndsWith_colon_appended, H. now rewrite append_nil_r.
Qed.

Lemma AccessModifier_colon_witness :
  AccessModifier "public:" (fresh "Foo.h") = AccessModifier "public" (fresh "Foo.h").
Proof. apply (AccessModifier_colon "public" (fresh "Foo.h")). reflexivity. Defined.

(** X6: the line [AccessModifier] emits always ends with a colon and is
    indented one level less than the current depth. *)
Theorem AccessModifier_line (Text : string) (s : CodeFileGenerator) :
  exists label,
    FileContent (AccessModifier Text s) =
      FileContent s ++ indentation (IndentCount s - 1) ++ label ++ str1 LF /\
    EndsWith label ":" = true /\
    (label = Text \/ label = Text ++ ":").
Proof.
  unfold AccessModifier. rewrite FileContent_Line. unfold line_text.
  destruct (EndsWith Text ":") eqn:E.
  - exists Text. rewrite append_nil_r. simpl. auto.
  - exists (Text ++ ":"). simpl. split; [reflexivity |].
    split; [apply EndsWith_colon_appended | now right].
Qed.

(** X7: [Variable] emits the accessor for nothing else: when the
    declaration is not a [UPROPERTY], or its type is not exactly
    [FText], or its name is reserved, the text added ends with the field
    declaration. *)
Theorem Variable_no_accessor
    (Type_ Name Value Comment_ Specs : string) (bUproperty : bool)
    (s : CodeFileGenerator) :
  bUproperty = false \/ Equals Type_ "FText" = false \/
  Contains ReservedNames Name = true ->
  FileContent (Variable_ Type_ Name Value Comment_ bUproperty Specs s) =
    FileContent s
    ++ (if IsEmpty Comment_ then ""
        else line_text (IndentCount s) ("/** " ++ Comment_ ++ " */") false)
    ++ (if bUproperty
        then line_text (IndentCount s) ("UPROPERTY(" ++ Specs ++ ")") false
        else "")
    ++ line_text (IndentCount s)
         (Type_ ++ " " ++ Name ++ (if IsEmpty Value then "" else " = " ++ Value))
         true.
Proof.
  intros H. unfold Variable_, seq, when, Comment, UPropertyMacro.
  assert (Hno : (bUproperty && Equals Type_ "FText"
                 && negb (Contains ReservedNames Name))%bool = false).
  { destruct H as [-> | [-> | ->]]; [reflexivity | | ];
      rewrite ?andb_false_r; reflexivity. }
  destruct (IsEmpty Comment_), (IsEmpty Value), bUproperty,
    (Equals Type_ "FText"), (Contains ReservedNames Name);
    try discriminate Hno; cbn [negb andb]; unfold skip;
    repeat rewrite ?FileContent_Line1, ?FileContent_Line2,
      ?IndentCount_Line1, ?IndentCount_Line2;
    rewrite ?append_assoc, ?append_nil_r; reflexivity.
Qed.

Lemma Variable_no_accessor_witness :
  FileContent (Variable_ "FText" "DisplayName" "" "" true "" (fresh "Foo.h")) =
    "UPROPERTY()" ++ str1 LF ++ "FText DisplayName;" ++ str1 LF /\
  FileContent (Variable_ "ftext" "Greeting" "" "" true "" (fresh "Foo.h")) =
    "UPROPERTY()" ++ str1 LF ++ "ftext Greeting;" ++ str1 LF.
Proof.
  split.
  - rewrite (Variable_no_accessor "FText" "DisplayName" "" "" "" true (fresh "Foo.h"));
      [reflexivity | right; right; reflexivity].
  - rewrite (Variable_no_accessor "ftext" "Greeting" "" "" "" true (fresh "Foo.h"));
      [reflexivity | right; left; reflexivity].
Defined.

(** ** Programs of emission calls *)

(** A relation between generator states that holds across the five
    steps every emission function is made of holds across every call
    and every program. *)
Section Stepwise.
Variable R : CodeFileGenerator -> CodeFileGenerator -> Prop.
Hypothesis R_refl : forall s, R s s.
Hypothesis R_trans : forall a b c, R a b -> R b c -> R a c.
Hypothesis R_Line : forall t semi ind off s, R s (Line t semi ind off s).
Hypothesis R_PushIndent : forall s, R s (PushIndent s).
Hypothesis R_PopIndent : forall s, R s (PopIndent s).
Hypothesis R_increment : forall s, R s (set_BlockCount (BlockCount s + 1) s).
Hypothesis R_decrement : forall s,
  R s (if BlockCount s =? 0
       then UE_LOG BlockEndMismatch s
       else set_BlockCount (BlockCount s - 1) s).

Lemma R_seq (f g : Op) :
  (forall s, R s (f s)) -> (forall s, R s (g s)) -> forall s, R s ((f ;; g) s).
Proof. intros Hf Hg s. unfold seq. eapply R_trans; [apply Hf | apply Hg]. Qed.

Lemma R_when (b : bool) (f : Op) :
  (forall s, R s (f s)) -> forall s, R s (when b f s).
Proof. intros Hf s. destruct b; simpl; [apply Hf | apply R_refl]. Qed.

Ltac split_ops :=
  cbv zeta;
  repeat match goal with
         | |- forall s, _ s ((_ ;; _) s) => apply R_seq
         | |- forall s, _ s (when _ _ s) => apply R_when
         end.

Lemma R_StartBlock (b : bool) (s : CodeFileGenerator) : R s (StartBlock b s).
Proof.
  revert s. unfold StartBlock. split_ops; intros s;
    first [apply R_increment | apply R_Line | apply R_PushIndent].
Qed.

Lemma R_EndBlock (u semi : bool) (s : CodeFileGenerator) : R s (EndBlock u semi s).
Proof.
  revert s. unfold EndBlock. split_ops; intros s;
    first [apply R_decrement | apply R_Line | apply R_PopIndent].
Qed.

Lemma R_exec (p : string) (c : EmitCall) (s : CodeFileGenerator) : R s (exec p c s).
Proof.
  revert s.
  destruct c; cbn [exec];
    unfold Comment, AccessModifier, UPropertyMacro, UFunctionMacro, Variable_,
      StartClass, StartStruct, EndStruct;
    split_ops; intros s;
    first [apply R_Line | apply R_StartBlock | apply R_EndBlock].
Qed.

Lemma R_exec_all (p : string) (cs : list EmitCall) :
  forall s, R s (exec_all p cs s).
Proof.
  induction cs as [|c cs IH]; intros s; simpl; [apply R_refl |].
  unfold seq. eapply R_trans; [apply R_exec | apply IH].
Qed.

End Stepwise.

(** X8: emission only appends.  Whatever calls are made, the text
    already in the buffer stays as a prefix of the buffer, and the
    target path does not change. *)
Theorem emission_append_only
    (ProjectName : string) (cs : list EmitCall) (s : CodeFileGenerator) :
  Path (exec_all ProjectName cs s) = Path s /\
  exists added,
    FileContent (exec_all ProjectName cs s) = FileContent s ++ added.
Proof.
  apply (R_exec_all
           (fun a b => Path b = Path a /\
                       exists added, FileContent b = FileContent a ++ added)).
  - intros a. split; [reflexivity | exists ""; now rewrite append_nil_r].
  - intros a b c [Hp1 [x Hx]] [Hp2 [y Hy]]. split; [congruence |].
    exists (x ++ y). now rewrite Hy, Hx, append_assoc.
  - intros t semi ind off a. split; [reflexivity |].
    destruct ind.
    + rewrite FileContent_Line. eauto.
    + unfold Line; simpl. eauto.
  - intros a. split; [reflexivity | exists ""; now rewrite append_nil_r].
  - intros a. unfold PopIndent. destruct (IndentCount a >? 0);
      (split; [reflexivity | exists ""; now rewrite append_nil_r]).
  - intros a. split; [reflexivity | exists ""; now rewrite append_nil_r].
  - intros a. destruct (BlockCount a =? 0);
      (split; [reflexivity | exists ""; now rewrite append_nil_r]).
Qed.

(** X9: the open-block count never becomes negative, whatever calls are
    made and however many [EndBlock] or [EndStruct] calls have no
    matching start. *)
Theorem BlockCount_never_negative
    (ProjectName : string) (cs : list EmitCall) (s : CodeFileGenerator) :
  0 <= BlockCount s -> 0 <= BlockCount (exec_all ProjectName cs s).
Proof.
  apply (R_exec_all (fun a b => 0 <= BlockCount a -> 0 <= BlockCount b)).
  - auto.
  - auto.
  - intros t semi ind off a. unfold Line; simpl. auto.
  - intros a. unfold PushIndent; simpl. auto.
  - intros a. unfold PopIndent. destruct (IndentCount a >? 0); simpl; auto.
  - intros a. simpl. lia.
  - intros a. destruct (BlockCount a =? 0) eqn:E; simpl; [auto |].
    apply Z.eqb_neq in E. lia.
Qed.

Lemma BlockCount_never_negative_witness :
  0 <= BlockCount
         (exec_all "Game" [DoEndStruct ""; DoEndBlock true false; DoStartBlock true]
                   (fresh "Foo.h")).
Proof.
  apply (BlockCount_never_negative "Game"
           [DoEndStruct ""; DoEndBlock true false; DoStartBlock true] (fresh "Foo.h")).
  simpl. lia.
Defined.

(** The balance of a generator: open blocks minus logged mismatches. *)
Lemma mismatches_UE_LOG (l : LogLine) (s : CodeFileGenerator) :
  mismatches (UE_LOG l s) = mismatches s + (if is_mismatch l then 1 else 0).
Proof.
  unfold mismatches, UE_LOG; simpl. rewrite filter_app, length_app. simpl.
  destruct (is_mismatch l); simpl; lia.
Qed.

(** X10: every block-closing call either lowers the open-block count or
    logs a block mismatch, never both and never neither.  So after any
    program the count is the initial count, plus the opening calls,
    minus the closing calls, plus the mismatches logged meanwhile. *)
Theorem BlockCount_accounting
    (ProjectName : string) (cs : list EmitCall) (s : CodeFileGenerator) :
  BlockCount (exec_all ProjectName cs s) =
    BlockCount s
    + count_calls opens_block cs
    - count_calls closes_block cs
    + (mismatches (exec_all ProjectName cs s) - mismatches s).
Proof.
  assert (Hstep : forall c a,
    BlockCount (exec ProjectName c a) - mismatches (exec ProjectName c a) =
    BlockCount a - mismatches a
    + (if opens_block c then 1 else 0) - (if closes_block c then 1 else 0)).
  { assert (HL : forall t semi ind off a,
      BlockCount (Line t semi ind off a) - mismatches (Line t semi ind off a) =
      BlockCount a - mismatches a) by reflexivity.
    assert (HS : forall b a,
      BlockCount (StartBlock b a) - mismatches (StartBlock b a) =
      BlockCount a - mismatches a + 1).
    { intros b a. unfold StartBlock, seq, when, Line1. destruct b; simpl;
        unfold mismatches; simpl; lia. }
    assert (HE : forall u semi a,
      BlockCount (EndBlock u semi a) - mismatches (EndBlock u semi a) =
      BlockCount a - mismatches a - 1).
    { intros u semi a. rewrite EndBlock_BlockCount.
      unfold EndBlock, seq, when, Line2.
      change (mismatches (Line "}" semi true 0 ?x)) with (mismatches x).
      assert (HP : forall x, mismatches (PopIndent x) = mismatches x).
      { intros x. unfold PopIndent. destruct (IndentCount x >? 0);
          [reflexivity | rewrite mismatches_UE_LOG; simpl; lia]. }
      destruct u; unfold skip; rewrite ?HP;
        destruct (BlockCount a =? 0) eqn:E0;
        rewrite ?mismatches_UE_LOG; simpl;
        try (apply Z.eqb_eq in E0); unfold mismatches; simpl; lia. }
    intros c a. destruct c; cbn [exec opens_block closes_block];
      unfold Variable_, StartClass, StartStruct, EndStruct;
      unfold Comment, AccessModifier, UPropertyMacro, UFunctionMacro,
        Line0, Line1, Line2, seq, when;
      repeat match goal with
             | |- context [if ?b then _ else _] =>
                 match b with
                 | BlockCount _ =? 0 => fail 1
                 | _ => destruct b
                 end
             end;
      unfold skip; rewrite ?HL, ?HS, ?HL, ?HE; lia. }
  revert s. induction cs as [|c cs IH]; intros s.
  - simpl. unfold skip, count_calls; simpl. lia.
  - cbn [exec_all]. unfold seq. rewrite IH.
    specialize (Hstep c s).
    unfold count_calls in *. cbn [filter].
    destruct (opens_block c), (closes_block c); cbn [List.length]; lia.
Qed.

(** Destructs the conditions of the [when]s and of the optional parts. *)
Ltac split_conditions :=
  repeat match goal with
         | |- context [if ?b then _ else _] =>
             match b with
             | BlockCount _ =? 0 => fail 1
             | IndentCount _ >? 0 => fail 1
             | _ => destruct b
             end
         end.

Ltac unfold_declarations :=
  unfold Variable_, StartClass, StartStruct, EndStruct;
  unfold Comment, AccessModifier, UPropertyMacro, UFunctionMacro,
    Line0, Line1, Line2, seq, when.

Lemma ends_with_newline_Line
    (t : string) (semi ind : bool) (off : Z) (s : CodeFileGenerator) :
  ends_with_newline (FileContent (Line t semi ind off s)).
Proof.
  unfold Line; simpl.
  eexists. rewrite <- !append_assoc. reflexivity.
Qed.

Lemma ends_with_newline_StartBlock (b : bool) (s : CodeFileGenerator) :
  ends_with_newline (FileContent (StartBlock b s)).
Proof.
  unfold StartBlock, seq, when, Line1.
  destruct b; [change (FileContent (PushIndent ?x)) with (FileContent x) |];
    unfold skip; apply ends_with_newline_Line.
Qed.

Lemma ends_with_newline_EndBlock (u semi : bool) (s : CodeFileGenerator) :
  ends_with_newline (FileContent (EndBlock u semi s)).
Proof. unfold EndBlock, seq, Line2. apply ends_with_newline_Line. Qed.

Lemma ends_with_newline_exec (p : string) (c : EmitCall) (s : CodeFileGenerator) :
  ends_with_newline (FileContent (exec p c s)).
Proof.
  destruct c; cbn [exec]; unfold_declarations; split_conditions; unfold skip;
    first [apply ends_with_newline_Line | apply ends_with_newline_StartBlock
          | apply ends_with_newline_EndBlock].
Qed.

(** X11: after at least one emission call the buffer is not empty and
    ends with a line break: no call leaves a line unfinished. *)
Theorem emission_ends_with_newline
    (ProjectName : string) (cs : list EmitCall) (s : CodeFileGenerator) :
  cs <> [] ->
  ends_with_newline (FileContent (exec_all ProjectName cs s)) /\
  IsEmpty (FileContent (exec_all ProjectName cs s)) = false.
Proof.
  intros Hne.
  assert (H : ends_with_newline (FileContent (exec_all ProjectName cs s))).
  { revert s. induction cs as [|c cs IH]; intros s; [contradiction |].
    cbn [exec_all]. unfold seq. destruct cs as [|c' cs'].
    - apply ends_with_newline_exec.
    - apply IH. discriminate. }
  split; [exact H |].
  destruct H as [before ->]. now destruct before.
Qed.

Lemma emission_ends_with_newline_witness :
  IsEmpty (FileContent (exec_all "Game" struct_program (fresh "Foo.h"))) = false.
Proof.
  apply (emission_ends_with_newline "Game" struct_program (fresh "Foo.h")).
  discriminate.
Defined.

(** X12: the calls that only emit lines ([Line], [Comment],
    [AccessModifier], the two macros, [Variable]) change the text buffer
    and nothing else: depth, open-block count, log and path stay. *)
Theorem member_call_frame
    (ProjectName : string) (c : EmitCall) (s : CodeFileGenerator) :
  is_member_call c = true ->
  IndentCount (exec ProjectName c s) = IndentCount s /\
  BlockCount (exec ProjectName c s) = BlockCount s /\
  LogArticyEditor (exec ProjectName c s) = LogArticyEditor s /\
  Path (exec ProjectName c s) = Path s.
Proof.
  intros H. destruct c; try discriminate H; cbn [exec];
    unfold_declarations; split_conditions; unfold skip; repeat split.
Qed.

Lemma member_call_frame_witness :
  IndentCount (exec "Game" (DoVariable "FText" "Greeting" "" "" true "")
                 doc_open_block) = 1 /\
  BlockCount (exec "Game" (DoVariable "FText" "Greeting" "" "" true "")
                doc_open_block) = 2.
Proof.
  destruct (member_call_frame "Game" (DoVariable "FText" "Greeting" "" "" true "")
              doc_open_block eq_refl) as (HI & HB & _).
  split; [exact HI | exact HB].
Defined.

Lemma member_calls_frame (p : string) (cs : list EmitCall) :
  forallb is_member_call cs = true ->
  forall s,
    IndentCount (exec_all p cs s) = IndentCount s /\
    BlockCount (exec_all p cs s) = BlockCount s /\
    LogArticyEditor (exec_all p cs s) = LogArticyEditor s.
Proof.
  induction cs as [|c cs IH]; intros H s; [now cbn |].
  cbn [forallb] in H. apply andb_true_iff in H as [Hc Hcs].
  cbn [exec_all]. unfold seq.
  destruct (IH Hcs (exec p c s)) as (HI & HB & HL).
  destruct (member_call_frame p c s Hc) as (HI' & HB' & HL' & _).
  repeat split; congruence.
Qed.

Lemma exec_all_app (p : string) (l1 l2 : list EmitCall) (s : CodeFileGenerator) :
  exec_all p (l1 ++ l2) s = exec_all p l2 (exec_all p l1 s).
Proof.
  revert s. induction l1 as [|c l1 IH]; intros s; [reflexivity |].
  cbn [app exec_all]. unfold seq. apply IH.
Qed.

Lemma type_header_counters (p : string) (c : EmitCall) (s : CodeFileGenerator) :
  is_type_header c = true ->
  IndentCount (exec p c s) = IndentCount s + 1 /\
  BlockCount (exec p c s) = BlockCount s + 1 /\
  LogArticyEditor (exec p c s) = LogArticyEditor s.
Proof.
  intros H. destruct c; try discriminate H; cbn [exec];
    unfold_declarations; split_conditions; unfold skip; repeat split.
Qed.

Lemma EndBlock_matched_log (b semi : bool) (s : CodeFileGenerator) :
  0 < BlockCount s ->
  (if b then 1 else 0) <= IndentCount s ->
  LogArticyEditor (EndBlock b semi s) = LogArticyEditor s.
Proof.
  intros HB HI. unfold EndBlock, seq, when, Line2, PopIndent.
  destruct (BlockCount s =? 0) eqn:E0; [apply Z.eqb_eq in E0; lia |].
  destruct b; [| reflexivity]. cbn.
  destruct (IndentCount s >? 0) eqn:E1; [reflexivity |].
  rewrite Z.gtb_ltb in E1. apply Z.ltb_ge in E1. lia.
Qed.

(** X13: a class or struct header, any number of line-only calls and
    [EndStruct] form a balanced declaration: indent depth and open-block
    count are back at their initial values and nothing is logged. *)
Theorem type_declaration_balanced
    (ProjectName : string) (header : EmitCall) (members : list EmitCall)
    (InlineDeclaration : string) (s : CodeFileGenerator) :
  is_type_header header = true ->
  forallb is_member_call members = true ->
  wf s ->
  let s' := exec_all ProjectName
              (header :: members ++ [DoEndStruct InlineDeclaration]) s in
  IndentCount s' = IndentCount s /\
  BlockCount s' = BlockCount s /\
  LogArticyEditor s' = LogArticyEditor s.
Proof.
  intros Hh Hm [HI0 HB0]. cbn zeta.
  cbn [exec_all]. unfold seq. rewrite exec_all_app.
  destruct (type_header_counters ProjectName header s Hh) as (HI1 & HB1 & HL1).
  destruct (member_calls_frame ProjectName members Hm (exec ProjectName header s))
    as (HI2 & HB2 & HL2).
  set (s2 := exec_all ProjectName members (exec ProjectName header s)) in *.
  cbn [exec_all exec]. unfold EndStruct. unfold seq, skip, when, Line2.
  destruct (EndBlock_matched true (IsEmpty InlineDeclaration) s2) as [HB3 HI3];
    [lia | lia |].
  pose proof (EndBlock_matched_log true (IsEmpty InlineDeclaration) s2) as HL3.
  destruct (negb (IsEmpty InlineDeclaration)); unfold skip;
    cbn [IndentCount BlockCount LogArticyEditor Line set_FileContent];
    rewrite HB3, HI3, HL3 by lia; repeat split; try lia; congruence.
Qed.

Lemma type_declaration_balanced_witness :
  IndentCount (exec_all "Game" struct_program (fresh "Foo.h")) = 0 /\
  BlockCount (exec_all "Game" struct_program (fresh "Foo.h")) = 0 /\
  LogArticyEditor (exec_all "Game" struct_program (fresh "Foo.h")) = [].
Proof.
  exact (type_declaration_balanced "Game"
           (DoStartStruct "FFoo" "A struct" true)
           [DoAccessModifier "public";
            DoVariable "FText" "Greeting" "" "" true "EditAnywhere"]
           "" (fresh "Foo.h") eq_refl eq_refl (wf_fresh "Foo.h")).
Defined.

(** ** Blocks and type declarations: the text *)

Lemma StartBlock_FileContent (b : bool) (s : CodeFileGenerator) :
  FileContent (StartBlock b s) =
  FileContent s ++ line_text (IndentCount s) "{" false.
Proof.
  unfold StartBlock, seq, when.
  destruct b; [change (FileContent (PushIndent ?x)) with (FileContent x) |];
    unfold skip; now rewrite FileContent_Line1.
Qed.

Lemma run_calls_append_only (cs : list BlockCall) :
  forall s, exists body, FileContent (run_calls cs s) = FileContent s ++ body.
Proof.
  induction cs as [|c cs IH]; intros s.
  - exists "". rewrite run_calls_nil. now rewrite append_nil_r.
  - rewrite run_calls_cons. destruct (IH (run_call c s)) as [body Hb].
    rewrite Hb. destruct c as [b | u semi]; cbn [run_call].
    + rewrite StartBlock_FileContent, append_assoc. eauto.
    + rewrite EndBlock_FileContent, append_assoc. eauto.
Qed.

(** X14: the braces of a block line up.  When the calls between a
    [StartBlock] and the [EndBlock] with the same indent flag are
    balanced, the buffer gets the opening brace at the initial depth,
    then exactly the text the inner calls add when run after that
    [StartBlock], then the closing brace at the initial depth again. *)
Theorem block_braces_align
    (b bSemicolon : bool) (inner : list BlockCall) (s : CodeFileGenerator) :
  Balanced inner ->
  wf s ->
  exists body,
    FileContent (run_calls inner (StartBlock b s)) =
      FileContent (StartBlock b s) ++ body /\
    FileContent (StartBlock b s) =
      FileContent s ++ line_text (IndentCount s) "{" false /\
    FileContent
      (run_calls (CallStartBlock b :: inner ++ [CallEndBlock b bSemicolon]) s) =
    FileContent s
    ++ line_text (IndentCount s) "{" false
    ++ body
    ++ line_text (IndentCount s) "}" bSemicolon.
Proof.
  intros Hbal Hs.
  rewrite run_calls_cons, run_calls_app, run_calls_cons, run_calls_nil.
  cbn [run_call].
  pose proof (wf_StartBlock b s Hs) as Hs1.
  destruct (StartBlock_counters b s) as [HB1 HI1].
  destruct (run_Balanced inner Hbal _ Hs1) as [HB2 HI2].
  destruct (run_calls_append_only inner (StartBlock b s)) as [body Hbody].
  destruct Hs as [HI0 HB0].
  destruct (EndBlock_matched b bSemicolon (run_calls inner (StartBlock b s)))
    as [_ HI3]; [lia | destruct b; lia |].
  exists body.
  split; [exact Hbody |].
  split; [apply StartBlock_FileContent |].
  rewrite EndBlock_FileContent, HI3, HI2, HI1, Hbody, StartBlock_FileContent.
  replace (IndentCount s + (if b then 1 else 0) - (if b then 1 else 0))
    with (IndentCount s) by lia.
  now rewrite !append_assoc.
Qed.

Lemma block_braces_align_witness :
  FileContent (run_calls nested_calls (fresh "Foo.h")) =
    "{" ++ str1 LF
    ++ (str1 TAB ++ "{" ++ str1 LF ++ str1 TAB ++ "}" ++ str1 LF)
    ++ "};" ++ str1 LF.
Proof.
  destruct (block_braces_align true true
              [CallStartBlock false; CallEndBlock false false] (fresh "Foo.h"))
    as (body & Hinner & Hopen & Hall).
  - apply (Balanced_block false false []). apply Balanced_nil.
  - apply wf_fresh.
  - assert (Hbody :
      body = str1 TAB ++ "{" ++ str1 LF ++ str1 TAB ++ "}" ++ str1 LF).
    { apply (append_inv_head (FileContent (StartBlock true (fresh "Foo.h")))).
      rewrite <- Hinner. reflexivity. }
    subst body. exact Hall.
Defined.

(** X15: [EndStruct] closes the block with the unindent and ends the
    declaration with exactly one semicolon: on the brace when there is
    no inline declaration, otherwise on the inline declaration that
    follows the brace at the same depth. *)
Theorem EndStruct_text (InlineDeclaration : string) (s : CodeFileGenerator) :
  let d := IndentCount (EndStruct InlineDeclaration s) in
  FileContent (EndStruct InlineDeclaration s) =
    FileContent s
    ++ (if IsEmpty InlineDeclaration
        then line_text d "}" true
        else line_text d "}" false ++ line_text d InlineDeclaration true) /\
  d = (if IndentCount s >? 0 then IndentCount s - 1 else IndentCount s).
Proof.
  cbn zeta. unfold EndStruct, seq, when.
  destruct (IsEmpty InlineDeclaration); cbn [negb]; unfold skip.
  - rewrite EndBlock_FileContent, EndBlock_IndentCount. simpl. auto.
  - rewrite FileContent_Line2, IndentCount_Line2, EndBlock_FileContent,
      EndBlock_IndentCount. simpl. now rewrite append_assoc.
Qed.

(** X16: [StartClass] emits the optional comment, the [UCLASS] line and
    the header at the current depth, with the upper-cased project name
    and [_API ] before the class name when [bUClass] is set, then the
    opening brace at the same depth, and for a [UCLASS] the
    [GENERATED_BODY()] line and an indented blank line one level
    deeper.  It opens one block and one indent level. *)
Theorem StartClass_text
    (ProjectName Classname Comment_ Specs : string) (bUClass : bool)
    (s : CodeFileGenerator) :
  let d := IndentCount s in
  let s' := StartClass ProjectName Classname Comment_ bUClass Specs s in
  FileContent s' =
    FileContent s
    ++ (if IsEmpty Comment_ then ""
        else line_text d ("/** " ++ Comment_ ++ " */") false)
    ++ (if bUClass then line_text d ("UCLASS(" ++ Specs ++ ")") false else "")
    ++ line_text d
         ("class " ++ (if bUClass then ToUpper ProjectName ++ "_API " else "")
            ++ Classname) false
    ++ line_text d "{" false
    ++ (if bUClass
        then line_text (d + 1) "GENERATED_BODY()" false ++ line_text (d + 1) "" false
        else "") /\
  IndentCount s' = d + 1 /\
  BlockCount s' = BlockCount s + 1.
Proof.
  cbn zeta. split; [| split].
  - unfold StartClass, GetExportMacro, seq, when, Comment.
    change Line0 with (Line1 "").
    destruct (IsEmpty Comment_), bUClass; cbn [negb]; unfold skip;
      repeat rewrite ?FileContent_Line1, ?IndentCount_Line1,
        ?StartBlock_FileContent,
        ?(fun b x => proj2 (StartBlock_counters b x));
      cbn [IndentCount]; rewrite ?append_assoc, ?append_nil_r; reflexivity.
  - unfold StartClass, seq, when, Comment, Line0.
    destruct (negb (IsEmpty Comment_)), bUClass; reflexivity.
  - unfold StartClass, seq, when, Comment, Line0.
    destruct (negb (IsEmpty Comment_)), bUClass; reflexivity.
Qed.

(** X17: [StartStruct] does the same for a struct: optional comment,
    [USTRUCT(BlueprintType)] and the export macro only when [bUStruct]
    is set, header and brace at the current depth, [GENERATED_BODY()]
    and the blank line one level deeper. *)
Theorem StartStruct_text
    (ProjectName Structname Comment_ : string) (bUStruct : bool)
    (s : CodeFileGenerator) :
  let d := IndentCount s in
  let s' := StartStruct ProjectName Structname Comment_ bUStruct s in
  FileContent s' =
    FileContent s
    ++ (if IsEmpty Comment_ then ""
        else line_text d ("/** " ++ Comment_ ++ " */") false)
    ++ (if bUStruct then line_text d "USTRUCT(BlueprintType)" false else "")
    ++ line_text d
         ("struct " ++ (if bUStruct then ToUpper ProjectName ++ "_API " else "")
            ++ Structname) false
    ++ line_text d "{" false
    ++ (if bUStruct
        then line_text (d + 1) "GENERATED_BODY()" false ++ line_text (d + 1) "" false
        else "") /\
  IndentCount s' = d + 1 /\
  BlockCount s' = BlockCount s + 1.
Proof.
  cbn zeta. split; [| split].
  - unfold StartStruct, GetExportMacro, seq, when, Comment.
    change Line0 with (Line1 "").
    destruct (IsEmpty Comment_), bUStruct; cbn [negb]; unfold skip;
      repeat rewrite ?FileContent_Line1, ?IndentCount_Line1,
        ?StartBlock_FileContent,
        ?(fun b x => proj2 (StartBlock_counters b x));
      cbn [IndentCount]; rewrite ?append_assoc, ?append_nil_r; reflexivity.
  - unfold StartStruct, seq, when, Comment, Line0.
    destruct (negb (IsEmpty Comment_)), bUStruct; reflexivity.
  - unfold StartStruct, seq, when, Comment, Line0.
    destruct (negb (IsEmpty Comment_)), bUStruct; reflexivity.
Qed.

(** ** The persistence gate, further *)

Ltac in_trace H :=
  cbn in H; repeat (destruct H as [H | H]; try discriminate H); try contradiction.

(** X18: [WriteToFile] writes exactly when it does not return early,
    that is when the buffer is not empty and the file is absent or what
    is read from it differs from the buffer; what it writes is the
    buffer, to the generator's path. *)
Theorem WriteToFile_writes_iff
    (P : Platform) (g : CodeFileGenerator) (c p : string) :
  In (ESaveStringToFile c p) (trace P g) <->
  c = FileContent g /\ p = Path g /\ skipped P g = false.
Proof.
  unfold skipped. rewrite trace_WriteToFile.
  io_cases P g; (split; [intros Hin | intros (-> & -> & Hs)]);
    try discriminate Hs;
    try (in_trace Hin; injection Hin as <- <-; auto);
    cbn; auto 10.
Qed.

Lemma WriteToFile_writes_iff_witness :
  In (ESaveStringToFile "new" "Foo.h") (trace platform_tracked doc_new).
Proof.
  apply (proj2 (WriteToFile_writes_iff platform_tracked doc_new "new" "Foo.h")).
  repeat split.
Defined.

(** X19: one call of [WriteToFile] touches one file: every external call
    that names a file names the generator's path, and at most one write
    and one mark-for-add are made. *)
Theorem WriteToFile_one_file (P : Platform) (g : CodeFileGenerator) :
  (forall e f, In e (trace P g) -> event_file e = Some f -> f = Path g) /\
  (count is_Save (trace P g) <= 1)%nat /\
  (count is_MarkForAdd (trace P g) <= 1)%nat.
Proof.
  rewrite trace_WriteToFile. unfold count. split; [| split].
  - intros e f Hin Hf.
    io_cases P g; in_trace Hin; subst e; cbn in Hf; congruence.
  - io_cases P g; cbn; lia.
  - io_cases P g; cbn; lia.
Qed.

Lemma WriteToFile_one_file_witness : "Foo.h" = Path doc_new.
Proof.
  apply (proj1 (WriteToFile_one_file platform_tracked doc_new)
           (EMarkFileForAdd "Foo.h") "Foo.h").
  - vm_compute. auto 10.
  - reflexivity.
Defined.

(** X20: the block-count warning is logged exactly when the buffer is
    not empty and blocks are still open, and it reports the open-block
    count. *)
Theorem WriteToFile_block_warning
    (P : Platform) (g : CodeFileGenerator) (l : LogLine) :
  In (ELog l) (trace P g) <->
  IsEmpty (FileContent g) = false /\ 0 < BlockCount g /\
  l = BlockCountWhenWriting (BlockCount g).
Proof.
  rewrite trace_WriteToFile.
  destruct (BlockCount g >? 0) eqn:Eb.
  - apply Z.gtb_lt in Eb.
    io_cases P g; (split; [intros Hin | intros (He & _ & ->)]);
      try discriminate He;
      try (in_trace Hin; injection Hin as <-; auto);
      cbn; auto.
  - assert (~ 0 < BlockCount g)
      by (rewrite Z.gtb_ltb in Eb; apply Z.ltb_ge in Eb; lia).
    io_cases P g; (split; [intros Hin | intros (He & Hb & ->)]);
      try contradiction; in_trace Hin.
Qed.

Lemma WriteToFile_block_warning_witness :
  In (ELog (BlockCountWhenWriting 2)) (trace platform_absent doc_open_block).
Proof.
  apply (proj2 (WriteToFile_block_warning platform_absent doc_open_block
                  (BlockCountWhenWriting 2))).
  split; [reflexivity | split; [simpl; lia | reflexivity]].
Defined.

(** X21: open blocks do not hold the write back.  The external calls
    depend on the path and the buffer only: indent depth, open-block
    count and log of the generator make no difference to them. *)
Theorem WriteToFile_calls_ignore_counters
    (P : Platform) (g g' : CodeFileGenerator) :
  Path g = Path g' ->
  FileContent g = FileContent g' ->
  calls (trace P g) = calls (trace P g').
Proof.
  intros Hp Hc. rewrite !trace_WriteToFile, <- Hp, <- Hc. unfold calls.
  destruct (BlockCount g >? 0), (BlockCount g' >? 0);
    io_cases P g; reflexivity.
Qed.

Lemma WriteToFile_calls_ignore_counters_witness :
  calls (trace platform_absent doc_open_block) = calls (trace platform_absent doc_new) /\
  In (ESaveStringToFile "new" "Foo.h") (trace platform_absent doc_open_block).
Proof.
  split.
  - apply (WriteToFile_calls_ignore_counters platform_absent doc_open_block doc_new);
      reflexivity.
  - vm_compute. auto 10.
Defined.

(** X22: with source control disabled, [WriteToFile] never asks the
    provider whether it uses checkout and never marks or checks out
    anything: its only possible effect is the write. *)
Theorem WriteToFile_without_source_control
    (P : Platform) (g : CodeFileGenerator) :
  IsEnabled P = false ->
  ~ In EUsesCheckout (trace P g) /\
  mutations (trace P g) =
    (if skipped P g then []
     else [ESaveStringToFile (FileContent g) (Path g)]).
Proof.
  intros Hen. split.
  - rewrite trace_WriteToFile, Hen. intros Hin.
    io_cases P g; in_trace Hin.
  - rewrite mutations_WriteToFile, Hen. unfold skipped.
    now rewrite andb_false_r.
Qed.

Lemma WriteToFile_without_source_control_witness :
  mutations (trace platform_no_source_control doc_new) =
    [ESaveStringToFile "new" "Foo.h"].
Proof.
  destruct (WriteToFile_without_source_control platform_no_source_control doc_new
              eq_refl) as [_ H].
  exact H.
Defined.

(** X23: an existing file that cannot be read is overwritten.  The
    result of [LoadFileToString] is not looked at, so when the read
    leaves [OldContent] empty a non-empty buffer always differs from it
    and the write is made. *)
Theorem WriteToFile_unreadable_file_overwritten
    (P : Platform) (g : CodeFileGenerator) :
  IsEmpty (FileContent g) = false ->
  snd (LoadFileToString P (Path g)) = "" ->
  In (ESaveStringToFile (FileContent g) (Path g)) (trace P g).
Proof.
  intros Hne Hold. apply WriteToFile_writes_iff.
  split; [reflexivity | split; [reflexivity |]].
  unfold skipped. rewrite Hne, Hold.
  destruct (FileContent g); [discriminate Hne |].
  now rewrite andb_false_r.
Qed.

Lemma WriteToFile_unreadable_file_overwritten_witness :
  FileExists platform_unreadable (Path doc_new) = true /\
  fst (LoadFileToString platform_unreadable (Path doc_new)) = false /\
  In (ESaveStringToFile "new" "Foo.h") (trace platform_unreadable doc_new).
Proof.
  split; [reflexivity | split; [reflexivity |]].
  apply (WriteToFile_unreadable_file_overwritten platform_unreadable doc_new);
    reflexivity.
Defined.

(** X24: a generator that received at least one emission call is never
    taken for empty by [WriteToFile]: the existence of its file is
    tested, and when the file is absent everything emitted is written
    to the path the generator was created with. *)
Theorem emitted_document_is_written
    (P : Platform) (ProjectName : string) (cs : list EmitCall)
    (s : CodeFileGenerator) :
  cs <> [] ->
  let s' := exec_all ProjectName cs s in
  In (EFileExists (Path s)) (trace P s') /\
  (FileExists P (Path s) = false ->
   In (ESaveStringToFile (FileContent s') (Path s)) (trace P s')).
Proof.
  intros Hne. cbn zeta.
  destruct (emission_ends_with_newline ProjectName cs s Hne) as [_ Hnonempty].
  destruct (emission_append_only ProjectName cs s) as [Hpath _].
  set (s' := exec_all ProjectName cs s) in *. split.
  - rewrite trace_WriteToFile, Hnonempty, Hpath.
    apply in_or_app. right. now left.
  - intros Hex. rewrite <- Hpath in Hex |- *.
    apply WriteToFile_writes_iff.
    split; [reflexivity | split; [reflexivity |]].
    unfold skipped. now rewrite Hnonempty, Hex.
Qed.

Lemma emitted_document_is_written_witness :
  In (ESaveStringToFile
        (FileContent (exec_all "Game" struct_program (fresh "Foo.h"))) "Foo.h")
     (trace platform_absent (exec_all "Game" struct_program (fresh "Foo.h"))).
Proof.
  destruct (emitted_document_is_written platform_absent "Game" struct_program
              (fresh "Foo.h")) as [_ H]; [discriminate |].
  apply H. reflexivity.
Defined.

(** ** The dialogue-entity tooltip *)

(** Runs [CreateToolTipContent] on every shape of object. *)
Ltac tooltip_cases o :=
  unfold CreateToolTipContent in *;
  destruct o as [asset class [display |] [[speaker |] |] [text |]];
  cbn [AssetName ClassName DisplayNameOf SpeakerDisplayName TextOf] in *;
  try (destruct (IsEmpty display) eqn:Edisplay);
  try (destruct (IsEmpty text) eqn:Etext);
  cbn [negb] in *.

Ltac in_rows H :=
  cbn in H; repeat (destruct H as [H | H]; [subst |]); try contradiction.

(** X25: [CreateToolTipContent] fails in one case only: the object has
    a speaker, and the speaker asset is missing or has no display name,
    so that [GetDisplayName] is called through a null pointer.  For every
    other object a tooltip is built. *)
Theorem tooltip_fails_iff (HighlightText : string) (o : ArticyObject) :
  CreateToolTipContent HighlightText o = None <->
  SpeakerDisplayName o = Some None.
Proof.
  tooltip_cases o; split; intros H; try discriminate H; reflexivity.
Qed.

Lemma tooltip_fails_iff_witness : CreateToolTipContent "" orphan_line = None.
Proof.
  apply (proj2 (tooltip_fails_iff "" orphan_line)). reflexivity.
Defined.

(** X26: the title of the tooltip is the display name when the object
    has a non-empty one, and then the asset name is listed in the body
    as an unimportant row; otherwise the title is the asset name and
    the body has no asset-name row. *)
Theorem tooltip_title
    (HighlightText : string) (o : ArticyObject) (t : ToolTipContent) :
  CreateToolTipContent HighlightText o = Some t ->
  (forall d, DisplayNameOf o = Some d -> IsEmpty d = false ->
     NameText t = d /\
     In (mkRow "Asset Name:" (AssetName o) false "") (InfoBox t)) /\
  (DisplayNameOf o = None \/ DisplayNameOf o = Some "" ->
     NameText t = AssetName o /\
     forall r, In r (InfoBox t) -> RowLabel r <> "Asset Name:").
Proof.
  intros H. split.
  - intros d Hd Hne.
    tooltip_cases o; try discriminate H; try discriminate Hd;
      injection Hd as ->; try congruence;
      injection H as <-; cbn; auto 10.
  - intros Hd.
    tooltip_cases o; try discriminate H;
      try (destruct Hd as [Hd | Hd]; [discriminate Hd | injection Hd as ->];
           discriminate Edisplay);
      injection H as <-; (split; [reflexivity |]);
      intros r Hin Hl; in_rows Hin; cbn in Hl; discriminate Hl.
Qed.

Lemma tooltip_title_witness :
  exists t,
    CreateToolTipContent "" line_of_dialogue = Some t /\
    NameText t = "Greeting" /\
    In (mkRow "Asset Name:" "DFr_0x01" false "") (InfoBox t).
Proof.
  eexists. split; [reflexivity |].
  apply (proj1 (tooltip_title "" line_of_dialogue _ eq_refl) "Greeting");
    reflexivity.
Defined.

(** X27: the body of the tooltip shows its rows in a fixed order,
    speaker, text, asset name, class, each at most once; the class row
    is always there and always last, with the class name in
    parentheses. *)
Theorem tooltip_rows_order
    (HighlightText : string) (o : ArticyObject) (t : ToolTipContent) :
  CreateToolTipContent HighlightText o = Some t ->
  sublist (map RowLabel (InfoBox t)) all_labels = true /\
  (exists before,
     InfoBox t =
     (before ++ [mkRow "Class:" ("(" ++ ClassName o ++ ")") false ""])%list) /\
  (1 <= List.length (InfoBox t) <= 4)%nat.
Proof.
  intros H.
  tooltip_cases o; try discriminate H; injection H as <-;
    (split; [reflexivity |]);
    (split; [| cbn; lia]);
    cbn;
    first [ exists []; reflexivity
          | eexists [_]; reflexivity
          | eexists [_; _]; reflexivity
          | eexists [_; _; _]; reflexivity ].
Qed.

Lemma tooltip_rows_order_witness :
  exists t,
    CreateToolTipContent "" plain_asset = Some t /\
    sublist (map RowLabel (InfoBox t)) all_labels = true /\
    (1 <= List.length (InfoBox t) <= 4)%nat.
Proof.
  eexists. split; [reflexivity |].
  destruct (tooltip_rows_order "" plain_asset _ eq_refl) as (Hsub & _ & Hlen).
  split; [exact Hsub | exact Hlen].
Defined.

(** X28: no row of the tooltip is ever highlighted: the highlight is
    reserved for a row with the key [Path], and [CreateToolTipContent]
    adds none. *)
Theorem tooltip_never_highlights
    (HighlightText : string) (o : ArticyObject) (t : ToolTipContent) :
  CreateToolTipContent HighlightText o = Some t ->
  forall r, In r (InfoBox t) -> RowHighlight r = "".
Proof.
  intros H r Hin.
  tooltip_cases o; try discriminate H; injection H as <-;
    in_rows Hin; reflexivity.
Qed.

Lemma tooltip_never_highlights_witness :
  exists t,
    CreateToolTipContent "Anna" line_of_dialogue = Some t /\
    Forall (fun r => RowHighlight r = "") (InfoBox t).
Proof.
  eexists. split; [reflexivity |].
  apply Forall_forall.
  exact (tooltip_never_highlights "Anna" line_of_dialogue _ eq_refl).
Defined.

(** X29: the speaker and the text are the important rows.  An object
    with a resolved speaker gets the speaker's display name as first
    row; an object with a non-empty text gets the text in double quotes;
    an object without text, or with an empty text, gets no text row. *)
Theorem tooltip_speaker_and_text_rows
    (HighlightText : string) (o : ArticyObject) (t : ToolTipContent) :
  CreateToolTipContent HighlightText o = Some t ->
  (forall d, SpeakerDisplayName o = Some (Some d) ->
     exists rest, InfoBox t = mkRow "Speaker:" d true "" :: rest) /\
  (forall x, TextOf o = Some x -> IsEmpty x = false ->
     In (mkRow "Text:" (str1 DQUOTE ++ x ++ str1 DQUOTE) true "") (InfoBox t)) /\
  (TextOf o = None \/ TextOf o = Some "" ->
     forall r, In r (InfoBox t) -> RowLabel r <> "Text:") /\
  (forall r, In r (InfoBox t) -> RowImportant r = true ->
     RowLabel r = "Speaker:" \/ RowLabel r = "Text:").
Proof.
  intros H. split; [| split; [| split]].
  - intros d Hd.
    tooltip_cases o; try discriminate H; try discriminate Hd;
      injection Hd as ->; injection H as <-; cbn; eauto.
  - intros x Hx Hne.
    tooltip_cases o; try discriminate H; try discriminate Hx;
      injection Hx as ->; try congruence;
      injection H as <-; cbn; auto 10.
  - intros Hx.
    tooltip_cases o; try discriminate H;
      try (destruct Hx as [Hx | Hx]; [discriminate Hx | injection Hx as ->];
           discriminate Etext);
      injection H as <-;
      intros r Hin Hl; in_rows Hin; cbn in Hl; discriminate Hl.
  - intros r Hin Himp.
    tooltip_cases o; try discriminate H; injection H as <-;
      in_rows Hin; cbn in Himp |- *; try discriminate Himp; auto.
Qed.

Lemma tooltip_speaker_and_text_rows_witness :
  exists t,
    CreateToolTipContent "" line_of_dialogue = Some t /\
    In (mkRow "Text:" (str1 DQUOTE ++ "Hello" ++ str1 DQUOTE) true "") (InfoBox t).
Proof.
  eexists. split; [reflexivity |].
  destruct (tooltip_speaker_and_text_rows "" line_of_dialogue _ eq_refl)
    as (_ & Htext & _).
  apply (Htext "Hello"); reflexivity.
Defined.
